(** * svg_batch_exporter: rule-based batch export of SVG files

    A shallow embedding of [svg_batch_exporter/svg_batch_exporter.py] and the
    properties of its parameter resolution, format routing, conversion
    commands and command-line entry point.

    Modelling conventions.
    - Python [str] is [string]; [str.lower] acts on the ASCII letters, which
      is all the format tables contain.
    - A Python [dict] with string keys is a [gmap string _]; [k in d] is
      [d !! k ≠ None].
    - The JSON values held by a rule block are scalars or flat lists of
      scalars ([None], booleans, integers, strings).
    - [print], [subprocess.run], the file system and the exceptions
      ([sys.exit] raises [SystemExit]) are threaded through a state and
      error monad [M]; the operating system and the Pillow library are
      variables of the section [Exporter], and so are the exceptions with
      which [open], [json.load] and [subprocess.run] fail. *)

From Stdlib Require Import ZArith Ascii String List.
From stdpp Require Import base strings pretty list gmap.


(** ** Python values *)

Inductive atom :=
  | ANone
  | ABool (b : bool)
  | AInt (n : Z)
  | AStr (s : string).

Inductive value :=
  | VAtom (a : atom)
  | VList (items : list atom).

Coercion VAtom : atom >-> value.

Abbreviation block := (gmap string value).
Abbreviation rule_document := (gmap string (gmap string value)).

(** [bool(v)] *)
Definition truthy (v : value) : bool :=
  match v with
  | VAtom ANone => false
  | VAtom (ABool b) => b
  | VAtom (AInt n) => negb (n =? 0)%Z
  | VAtom (AStr s) => negb (String.eqb s "")
  | VList items => match items with [] => false | _ :: _ => true end
  end.

(** [str(a)] *)
Definition py_str (a : atom) : string :=
  match a with
  | ANone => "None"
  | ABool true => "True"
  | ABool false => "False"
  | AInt n => pretty n
  | AStr s => s
  end.

(** [v == "default"] *)
Definition is_default (v : value) : bool :=
  match v with
  | VAtom (AStr s) => String.eqb s "default"
  | _ => false
  end.

(** ** Strings *)

Definition lower_ascii (c : ascii) : ascii :=
  let n := N_of_ascii c in
  if ((65 <=? n) && (n <=? 90))%N then ascii_of_N (n + 32) else c.

(** [s.lower()] *)
Fixpoint lower (s : string) : string :=
  match s with
  | EmptyString => EmptyString
  | String c s' => String (lower_ascii c) (lower s')
  end.

(** [s.endswith(suffix)] *)
Definition endswith (s suffix : string) : bool :=
  let n := String.length s in
  let m := String.length suffix in
  (m <=? n)%nat && String.eqb (substring (n - m) m s) suffix.

(** [s.split(sep)[0]]: the part of [s] before the first occurrence of [sep] *)
Fixpoint split_head (sep s : string) : string :=
  if String.prefix sep s then EmptyString
  else match s with
       | EmptyString => EmptyString
       | String c s' => String c (split_head sep s')
       end.

(** [s.split(c)] for a one-character separator *)
Fixpoint split (c : ascii) (s : string) : list string :=
  match s with
  | EmptyString => [EmptyString]
  | String a s' =>
      if Ascii.eqb a c then EmptyString :: split c s'
      else match split c s' with
           | tok :: toks => String a tok :: toks
           | [] => [String a EmptyString]
           end
  end.

(** ** Format tables *)

(** Export formats supported by Inkscape *)
Definition INKSCAPE_FORMATS : list string := ["png"; "pdf"; "ps"; "eps"].

(** Export formats supported by Pillow library *)
Definition PIL_FORMATS : list string :=
  ["jpeg"; "jpg"; "bmp"; "gif"; "im"; "pcx"; "tiff"].

(** The loop shared by the two format checks:
    [for frm in formats: if in_form.lower() == frm.lower(): return True]
    and [return False] after the loop. *)
Fixpoint format_loop (in_form : string) (formats : list string) : bool :=
  match formats with
  | [] => false
  | frm :: rest =>
      if String.eqb (lower in_form) (lower frm) then true
      else format_loop in_form rest
  end.

Definition _is_inkscape_format (in_form : string) : bool :=
  format_loop in_form INKSCAPE_FORMATS.

Definition _is_pillow_format (in_form : string) : bool :=
  format_loop in_form PIL_FORMATS.

(** The route [_convert_via_inkscape] takes for a format: its
    [if _is_inkscape_format / elif _is_pillow_format / else]. *)
Inductive format_class := Native | Relay | Unsupported.

Definition classify (file_format : string) : format_class :=
  if _is_inkscape_format file_format then Native
  else if _is_pillow_format file_format then Relay
  else Unsupported.


(** ** Exceptions, the program state and the monad *)

Inductive exn :=
  | TypeError
  | IndexError
  | KeyError
  | ImportError
  | FileNotFoundError
  | JSONDecodeError
  | OtherError (name : string).

(** How a call ends: it returns, an exception propagates, or [sys.exit]
    raised [SystemExit] with the given process exit status. *)
Inductive result (A : Type) :=
  | Ok (a : A)
  | Raise (e : exn)
  | Exit (status : Z).

Arguments Ok {A} a.
Arguments Raise {A} e.
Arguments Exit {A} status.

(** The objects [export_svg] shares between iterations ([rule_data] and its
    blocks, [supplied_param], [def_param]) and the outside world (regular
    files, lines printed, commands handed to [subprocess.run]). *)
Record state := State {
  rule_data : rule_document;
  supplied_param : block;
  def_param : block;
  files : gset string;
  stdout : list string;
  commands : list (list string)
}.

Definition M (A : Type) : Type := state → result A * state.

Definition ret {A} (a : A) : M A := λ st, (Ok a, st).

(** Sequencing: the rest runs only if the first part returned. *)
Definition bind {A B} (m : M A) (k : A → M B) : M B := λ st,
  match m st with
  | (Ok a, st') => k a st'
  | (Raise e, st') => (Raise e, st')
  | (Exit status, st') => (Exit status, st')
  end.

Declare Scope py_scope.
Delimit Scope py_scope with py.
Notation "x ← y ; z" := (bind y (λ x, z))
  (at level 20, y at level 100, z at level 200, only parsing) : py_scope.
Notation "x ;; z" := (bind x (λ _, z))
  (at level 100, z at level 200, only parsing, right associativity) : py_scope.
Local Open Scope py_scope.

Definition raise {A} (e : exn) : M A := λ st, (Raise e, st).

(** [sys.exit(status)]; [sys.exit()] is [sys_exit 0] *)
Definition sys_exit {A} (status : Z) : M A := λ st, (Exit status, st).

Definition set_rule_data (rd : rule_document) (st : state) : state :=
  State rd (supplied_param st) (def_param st) (files st) (stdout st) (commands st).

Definition set_supplied_param (b : block) (st : state) : state :=
  State (rule_data st) b (def_param st) (files st) (stdout st) (commands st).

Definition set_def_param (b : block) (st : state) : state :=
  State (rule_data st) (supplied_param st) b (files st) (stdout st) (commands st).

Definition set_files (fs : gset string) (st : state) : state :=
  State (rule_data st) (supplied_param st) (def_param st) fs (stdout st) (commands st).

Definition modify (f : state → state) : M unit := λ st, (Ok tt, f st).

Definition get {A} (f : state → A) : M A := λ st, (Ok (f st), st).

(** [print(line)] *)
Definition print (line : string) : M unit := λ st,
  (Ok tt, State (rule_data st) (supplied_param st) (def_param st)
                (files st) (stdout st ++ [line]) (commands st)).

(** [try: body / except handled: handler / finally: final]. The [finally]
    suite runs however the rest ended, and an exception it raises replaces
    the pending one. *)
Definition try_except_finally {A} (body : M A) (handled : exn → bool)
    (handler : M A) (final : M unit) : M A := λ st,
  let '(r1, st1) := body st in
  let '(r2, st2) :=
    match r1 with
    | Raise e => if handled e then handler st1 else (r1, st1)
    | _ => (r1, st1)
    end in
  match final st2 with
  | (Ok _, st3) => (r2, st3)
  | (Raise e, st3) => (Raise e, st3)
  | (Exit status, st3) => (Exit status, st3)
  end.

(** [for x in xs: body(x)] *)
Fixpoint for_each {A} (xs : list A) (body : A → M unit) : M unit :=
  match xs with
  | [] => ret tt
  | x :: rest => body x ;; for_each rest body
  end.

(** [d[k]] on a dict *)
Definition getitem (d : block) (k : string) : M value :=
  match d !! k with
  | Some v => ret v
  | None => raise KeyError
  end.

(** [v[i]] on a value: lists and strings are subscriptable *)
Definition subscript (v : value) (i : nat) : M atom :=
  match v with
  | VList items =>
      match items !! i with Some a => ret a | None => raise IndexError end
  | VAtom (AStr s) =>
      match String.get i s with
      | Some c => ret (AStr (String c EmptyString))
      | None => raise IndexError
      end
  | VAtom _ => raise TypeError
  end.

(** The right operand of [str + v]: anything but a [str] is a [TypeError] *)
Definition concat_operand (v : value) : M string :=
  match v with
  | VAtom (AStr s) => ret s
  | _ => raise TypeError
  end.

(** ** Helpers of the script *)

Definition _report_error {A} (exception : exn) (error_desc : string) : M A :=
  print error_desc ;; sys_exit 1.

Definition _report_status (status : string) : M unit := print status.

(** [os.path.isfile(path)] *)
Definition isfile (path : string) : M bool :=
  get (λ st, bool_decide (path ∈ files st)).

(** [os.remove(path)] *)
Definition os_remove (path : string) : M unit := λ st,
  if bool_decide (path ∈ files st)
  then (Ok tt, set_files (files st ∖ {[path]}) st)
  else (Raise FileNotFoundError, st).

(** [open(path, 'rb')] *)
Definition open_rb (path : string) : M unit :=
  found ← isfile path;
  if found then ret tt else raise FileNotFoundError.

(** [curated_param(data)]: the contents of [data] when the call returns.
    The key ["size"] stays in the dict; a ["default"] value becomes [None]. *)
Definition curated_param (data : block) : block :=
  match data !! "size" with
  | Some v => if is_default v then <["size" := VAtom ANone]> data else data
  | None => data
  end.

(** The dict objects a name of [export_svg] can be bound to: a block of
    [rule_data], [supplied_param], [def_param], or a [{}] literal nobody
    writes to. *)
Inductive ref :=
  | InRules (key : string)
  | Supplied
  | Default
  | Fresh.

Definition deref (st : state) (r : ref) : block :=
  match r with
  | InRules key => default ∅ (rule_data st !! key)
  | Supplied => supplied_param st
  | Default => def_param st
  | Fresh => ∅
  end.

Definition params : list string := ["size"; "format"; "drawing_only"].

(** [for block in param_blocks: if param in block:
       final_param[param] = block[param]; break] *)
Fixpoint first_block (param : string) (param_blocks : list block)
    (final_param : block) : block :=
  match param_blocks with
  | [] => final_param
  | blk :: rest =>
      match blk !! param with
      | Some v => <[param := v]> final_param
      | None => first_block param rest final_param
      end
  end.

(** [final_param = {}] and the loop [for param in params] around
    [first_block] *)
Definition resolve (param_blocks : list block) : block :=
  foldl (λ final_param param, first_block param param_blocks final_param)
        ∅ params.

(** The dict literal bound to [def_param] *)
Definition def_param_literal : block :=
  <["size" := VAtom ANone]>
    (<["format" := VAtom (AStr "png")]>
      (<["drawing_only" := VAtom (ABool true)]> ∅)).

(** [supplied_param] after the three [is not None] tests *)
Definition build_supplied_param (file_format : option string)
    (size : option value) (drawing_only : option bool) : block :=
  let supplied := ∅ in
  let supplied :=
    match size with Some v => <["size" := v]> supplied | None => supplied end in
  let supplied :=
    match file_format with
    | Some f => <["format" := VAtom (AStr f)]> supplied
    | None => supplied
    end in
  match drawing_only with
  | Some d => <["drawing_only" := VAtom (ABool d)]> supplied
  | None => supplied
  end.

(** [if key in rule_data: name = curated_param(rule_data[key])], the name
    being bound to [otherwise] before. The block is changed in place, so its
    new contents are stored back under [key]. *)
Definition bind_curated (key : string) (otherwise : ref) : M ref := λ st,
  match rule_data st !! key with
  | Some data =>
      (Ok (InRules key),
       set_rule_data (<[key := curated_param data]> (rule_data st)) st)
  | None => (Ok otherwise, st)
  end.

(** The first half of the body of [for svg_file in svg_files]: from
    [local_param = {}] to the end of [for param in params]. *)
Definition resolve_file (global_param : ref) (svg_file : string) : M block :=
  local_param ← bind_curated svg_file Fresh;
  get (λ st, resolve (deref st <$> [local_param; Supplied; global_param; Default])).

(** Parsed command line ([argparse] leaves an option that was not given at
    [None]) *)
Record arguments := Arguments {
  args_srcdir : string;
  args_outdir : string;
  args_rules : option string;
  args_size : option string;
  args_format : option string;
  args_drawing_only : option string;
  args_inkscape : option string
}.

(** [if a:] on an optional string *)
Definition given (a : option string) : option string :=
  match a with
  | Some s => if String.eqb s "" then None else Some s
  | None => None
  end.

Definition newline : string := String (ascii_of_nat 10) EmptyString.

(** ** Sample inputs *)

(** [svg_batch_exporter.py src out --size 50] *)
Definition args_size_50 : arguments :=
  Arguments "src" "out" None (Some "50") None None None.

(** [svg_batch_exporter.py src out] *)
Definition args_plain : arguments :=
  Arguments "src" "out" None None None None None.

(** [svg_batch_exporter.py src out --drawing_only maybe] *)
Definition args_drawing_only_maybe : arguments :=
  Arguments "src" "out" None None None (Some "maybe") None.

(** Rules with a global size and a format for one file *)
Definition rules_global_size : rule_document :=
  <["_globalrule_" := <["size" := VList [AInt 300; AInt 300]]> ∅]>
    (<["gauge" := <["format" := VAtom (AStr "gif")]> ∅]> ∅).

(** The same global size, with [gauge] asking for the ["default"] size, and
    with [gauge] saying nothing about the size *)
Definition rules_gauge_default : rule_document :=
  <["_globalrule_" := <["size" := VList [AInt 300; AInt 300]]> ∅]>
    (<["gauge" := <["size" := VAtom (AStr "default")]> ∅]> ∅).

Definition rules_gauge_silent : rule_document :=
  <["_globalrule_" := <["size" := VList [AInt 300; AInt 300]]> ∅]>
    (<["gauge" := ∅]> ∅).

(** A rule for [b] with a format neither Inkscape nor Pillow knows *)
Definition rules_b_webp : rule_document :=
  <["b" := <["format" := VAtom (AStr "webp")]> ∅]> ∅.

(** The state at the top of the loop of [export_svg], nothing supplied,
    with no file yet and with the files of the sample machine *)
Definition at_loop (rd : rule_document) : state :=
  State rd ∅ def_param_literal ∅ [] [].

(** A machine with Inkscape in [/usr/bin], a rules file, three drawings in
    every directory, a renderer that writes the intermediate PNG and a
    Pillow that writes the file it is asked for *)
Definition sample_files : gset string :=
  {["/usr/bin/inkscape"]} ∪ {["rules.json"]}.

Definition sample_start : state := State ∅ ∅ ∅ sample_files [] [].

Definition sample_at_loop (rd : rule_document) : state :=
  State rd ∅ def_param_literal sample_files [] [].

Definition sample_isdir (dirpath : string) : bool := true.

Definition sample_listdir (dirpath : string) : list string :=
  ["a.svg"; "b.svg"; "c.svg"].

Definition sample_json_load (json_filename : string) : rule_document + exn :=
  inl rules_b_webp.

Definition sample_run (cmd : list string) (fs : gset string) : gset string :=
  fs ∪ {["/tmp/mJaAjM.png"]}.

Definition sample_spawn (cmd : list string) (fs : gset string) : option exn :=
  None.

Definition sample_pillow_save (tempf out : string) (fs : gset string)
    : option exn * gset string :=
  (None, fs ∪ {[out]}).

(** [svg_batch_exporter.py src out --size 50,60] and
    [svg_batch_exporter.py src out --drawing_only YES] *)
Definition args_size_50_60 : arguments :=
  Arguments "src" "out" None (Some "50,60") None None None.

Definition args_drawing_only_YES : arguments :=
  Arguments "src" "out" None None None (Some "YES") None.

(** A rule whose format is a number *)
Definition rules_gauge_format_5 : rule_document :=
  <["gauge" := <["format" := VAtom (AInt 5)]> ∅]> ∅.

(** A machine without any directory *)
Definition sample_no_dir (dirpath : string) : bool := false.

(** A directory with the drawings [gauge] and [ink], a rules file holding
    [rules_gauge_default], and the state in which that batch, run without
    options, enters its loop *)
Definition sample_listdir_gauge (dirpath : string) : list string :=
  ["gauge.svg"; "ink.svg"].

Definition sample_json_load_gauge (json_filename : string)
    : rule_document + exn :=
  inl rules_gauge_default.

Definition sample_gauge_at_loop : state :=
  State rules_gauge_default ∅ def_param_literal sample_files
    ["Inkscape installation found ... /usr/bin/inkscape"; "2 SVG files found"]
    [].

(** Rules whose global block asks for the whole page, the command line
    [svg_batch_exporter.py src out --rules rules.json], and the state in
    which that run enters its loop *)
Definition rules_global_page : rule_document :=
  <["_globalrule_" := <["drawing_only" := VAtom (ABool false)]> ∅]> ∅.

Definition sample_json_load_page (json_filename : string)
    : rule_document + exn :=
  inl rules_global_page.

Definition args_rules_only : arguments :=
  Arguments "src" "out" (Some "rules.json") None None None None.


(** A renderer file that cannot be executed, and a rules file that is not
    text *)
Definition sample_spawn_denied (cmd : list string) (fs : gset string)
    : option exn :=
  Some (OtherError "PermissionError").

Definition sample_json_load_binary (json_filename : string)
    : rule_document + exn :=
  inr (OtherError "UnicodeDecodeError").

Section Exporter.

(** [os.name], [os.sep], [tempfile.gettempdir()] *)
Variable os_name : string.
Variable sep : string.
Variable tempdir : string.
(** [os.path.isdir], [os.listdir] *)
Variable isdir : string → bool.
Variable listdir : string → list string.
(** [open] and [json.load] on the file of that name: the document, or the
    exception raised ([JSONDecodeError] for text that is not JSON, and for
    instance [UnicodeDecodeError] for bytes that are not text or
    [PermissionError] for a file that cannot be read) *)
Variable json_load : string → rule_document + exn.
(** What running a command does to the files, and the exception
    [subprocess.run] raises when the program cannot be started
    ([PermissionError] for a file that is not executable, for instance) *)
Variable run : list string → gset string → gset string.
Variable spawn_failure : list string → gset string → option exn.
(** Whether [from PIL import Image] succeeds, and what [Image.open] and
    [im.save] of the first path to the second do: the exception raised, if
    any, and the files afterwards *)
Variable pillow_installed : bool.
Variable pillow_save : string → string → gset string → option exn * gset string.

Definition _run_command (cmd : list string) : M unit := λ st,
  match spawn_failure cmd (files st) with
  | Some e =>
      (Raise e, State (rule_data st) (supplied_param st) (def_param st)
                      (files st) (stdout st) (commands st ++ [cmd]))
  | None =>
      (Ok tt, State (rule_data st) (supplied_param st) (def_param st)
                    (run cmd (files st)) (stdout st) (commands st ++ [cmd]))
  end.

Definition _get_inkscape_path : M string :=
  path ←
    (if String.eqb os_name "nt" then
       let path := "C:\Program Files\Inkscape\inkscape.exe" in
       found ← isfile path;
       if found then ret path else
         let path := "C:\Program Files (x86)\Inkscape\inkscape.exe" in
         found ← isfile path;
         if found then ret path else
           _report_error (A := unit) FileNotFoundError "Inkscape installation not found!" ;;
           ret path
     else
       let path := "/Applications/Inkscape.app" +:+ "/Contents/Resources/bin/inkscape-bin" in
       found ← isfile path;
       if found then ret path else
         let path := "/usr/bin/inkscape" in
         found ← isfile path;
         if found then ret path else
           _report_error (A := unit) FileNotFoundError "No Inkscape installation found!" ;;
           ret path);
  _report_status ("Inkscape installation found ... " +:+ path) ;;
  ret path.

Definition _build_svg_filenames (dirpath : string) : M (list string) :=
  let svg_file_names :=
    foldl (λ names file_name,
             if endswith file_name ".svg"
             then names ++ [split_head ".svg" file_name]
             else names)
          [] (listdir dirpath) in
  let no_of_svg_files := length svg_file_names in
  (if (no_of_svg_files =? 0)%nat
   then _report_error FileNotFoundError ("No SVG file found in " +:+ dirpath)
   else ret tt) ;;
  _report_status (pretty no_of_svg_files +:+ " SVG files found") ;;
  ret svg_file_names.

Definition _resolve_dir (dirpath : string) : M bool :=
  if isdir dirpath then ret true
  else _report_error (A := unit) FileNotFoundError
         (dirpath +:+ " is not a valid directory!") ;;
       ret false.

Definition _resolve_path (filepath : string) : M bool :=
  found ← isfile filepath;
  if found then ret true
  else _report_error (A := unit) FileNotFoundError
         (filepath +:+ " is not a valid file path!") ;;
       ret false.

Definition _build_data_from_json (json_filename : string) : M rule_document :=
  found ← _resolve_path json_filename;
  if found then
    match json_load json_filename with
    | inl json_data => ret json_data
    | inr JSONDecodeError =>
        _report_error JSONDecodeError
                      (json_filename +:+ " is not a valid JSON file format!")
    | inr e => raise e
    end
  else _report_error FileNotFoundError (json_filename +:+ " is not a valid file!").

(** [cmd + ["-w", str(size[0]), "-h", str(size[1])]] *)
Definition with_size (cmd : list string) (size : value) : M (list string) :=
  w ← subscript size 0;
  h ← subscript size 1;
  ret (cmd ++ ["-w"; py_str w; "-h"; py_str h]).

Definition tempf_path : string := tempdir +:+ sep +:+ "mJaAjM.png".

Definition _convert_via_inkscape (inkscape_path src_svg_path out_img_path
    file_format : string) (size drawing_only : value) : M unit :=
  let cmd := [inkscape_path; "-f"; src_svg_path] in
  let cmd :=
    if truthy drawing_only then cmd ++ ["--export-area-drawing"]
    else cmd ++ ["--export-area-page"] in
  if _is_inkscape_format file_format then
    cmd ←
      (if String.eqb file_format "png" then
         let cmd := cmd ++ ["--export-png=" +:+ out_img_path] in
         if truthy size then with_size cmd size else ret cmd
       else if String.eqb file_format "pdf" then
         ret (cmd ++ ["--export-pdf=" +:+ out_img_path])
       else if String.eqb file_format "ps" then
         ret (cmd ++ ["--export-ps=" +:+ out_img_path])
       else if String.eqb file_format "eps" then
         ret (cmd ++ ["--export-eps=" +:+ out_img_path])
       else ret cmd);
    _run_command cmd
  else if _is_pillow_format file_format then
    let cmd := cmd ++ ["--export-png=" +:+ tempf_path] in
    cmd ← (if truthy size then with_size cmd size else ret cmd);
    _run_command cmd ;;
    try_except_finally
      ((if pillow_installed then ret tt else raise ImportError) ;;
       open_rb tempf_path ;;
       (λ st, let '(e, fs) := pillow_save tempf_path out_img_path (files st) in
              (match e with Some e => Raise e | None => Ok tt end,
               set_files fs st)))
      (λ e, match e with ImportError => true | _ => false end)
      (_report_error ImportError "Python3 Pillow library not found!")
      (os_remove tempf_path)
  else
    _report_error TypeError ("Unsupported file format to export: " +:+ file_format).

(** The body of [for svg_file in svg_files] *)
Definition export_file (inkscape_path src_dir out_dir : string)
    (global_param : ref) (svg_file : string) : M unit :=
  final_param ← resolve_file global_param svg_file;
  fmt ← getitem final_param "format";
  ext ← concat_operand fmt;
  size ← getitem final_param "size";
  drawing_only ← getitem final_param "drawing_only";
  _convert_via_inkscape inkscape_path
    (src_dir +:+ sep +:+ svg_file +:+ ".svg")
    (out_dir +:+ sep +:+ svg_file +:+ "." +:+ ext)
    ext size drawing_only ;;
  _report_status ("Saved " +:+ svg_file +:+ "." +:+ ext).

(** [export_svg] up to its loop: the checks, the rules and the blocks. It
    returns what the loop goes on with: the renderer, the stems and the
    object [global_param] is bound to. *)
Definition export_svg_setup (src_dir out_dir : string)
    (json_rules_file file_format : option string) (size : option value)
    (drawing_only : option bool) (inkscape_path : string)
    : M (string * list string * ref) :=
  src_ok ← _resolve_dir src_dir;
  (if src_ok then _resolve_dir out_dir else ret false) ;;
  match given json_rules_file with
  | Some f => _resolve_path f
  | None => ret true
  end ;;
  inkscape_path ←
    (if String.eqb inkscape_path "default" then _get_inkscape_path
     else _resolve_path inkscape_path ;; ret inkscape_path);
  modify (set_rule_data ∅) ;;
  let global_param := Fresh in
  modify (set_def_param def_param_literal) ;;
  modify (set_supplied_param ∅) ;;
  svg_files ← _build_svg_filenames src_dir;
  match json_rules_file with
  | Some f => rd ← _build_data_from_json f; modify (set_rule_data rd)
  | None => ret tt
  end ;;
  global_param ← bind_curated "_globalrule_" global_param;
  modify (set_supplied_param (build_supplied_param file_format size drawing_only)) ;;
  ret (inkscape_path, svg_files, global_param).

Definition export_svg (src_dir out_dir : string)
    (json_rules_file file_format : option string) (size : option value)
    (drawing_only : option bool) (inkscape_path : string) : M unit :=
  bind (export_svg_setup src_dir out_dir json_rules_file file_format size
          drawing_only inkscape_path)
       (λ '(inkscape_path, svg_files, global_param),
          for_each svg_files
            (export_file inkscape_path src_dir out_dir global_param) ;;
          _report_status "Done").

(** The block under [if __name__ == "__main__"], from the parsed
    arguments on *)
Definition main (args : arguments) : M unit :=
  let image_size : option value := None in
  let f_drawing_only := true in
  let f_format := args_format args in
  f_drawing_only ←
    match given (args_drawing_only args) with
    | Some a =>
        let draw := lower a in
        if String.eqb draw "y" || String.eqb draw "yes" then ret true
        else if String.eqb draw "n" || String.eqb draw "no" then ret false
        else
          print ("Wrong argument supplied for --drawing_only parameter! "
                 +:+ newline +:+ "Use --help or -h to get help") ;;
          sys_exit 0
    | None => ret f_drawing_only
    end;
  image_size ←
    match given (args_size args) with
    | Some a =>
        let image_size := split "," a in
        if negb (length image_size =? 2)%nat then
          print ("Wrong argument supplied for --size parameter! "
                 +:+ newline +:+ "Use --help or -h to get help") ;;
          sys_exit 0
        else ret (Some (VList (AStr <$> image_size)))
    | None => ret image_size
    end;
  let inkscape :=
    match given (args_inkscape args) with
    | Some path => path
    | None => "default"
    end in
  export_svg (args_srcdir args) (args_outdir args) (args_rules args) f_format
             image_size (Some f_drawing_only) inkscape.


(** ** Vocabulary of the properties *)

(** A computation leaves the part [f] of the state as it found it, however
    it ends. *)
Definition preserves {A X} (f : state → X) (m : M A) : Prop :=
  ∀ st, f (m st).2 = f st.

(** The objects parameter resolution reads *)
Definition param_objects (st : state) : rule_document * block * block :=
  (rule_data st, supplied_param st, def_param st).

(** [rd'] is [rd] with some of its blocks passed through [curated_param]. *)
Definition normalised (rd rd' : rule_document) : Prop :=
  ∀ key, rd' !! key = rd !! key ∨ rd' !! key = curated_param <$> rd !! key.

(** When the computation ends the process, the exit status is 1. *)
Definition exits_with_one {A} (m : M A) : Prop :=
  ∀ st z, (m st).1 = Exit z → z = 1%Z.

(** The loop [for x in xs: body x], entered in the state [st], comes to
    the iteration of [x] in the state [st1]: the iterations before it have
    returned. *)
Definition at_iteration {A} (xs : list A) (body : A → M unit) (st : state)
    (x : A) (st1 : state) : Prop :=
  ∃ before after,
    xs = before ++ x :: after ∧ for_each before body st = (Ok tt, st1).

(** The rule document of a batch: the one read from the rules file, if
    one was named and could be read *)
Definition loaded_rules (json_rules_file : option string) : rule_document :=
  match json_rules_file with
  | Some f => match json_load f with inl rd => rd | inr _ => ∅ end
  | None => ∅
  end.

(** * Properties *)

(** ** Strings and the format tables *)

Lemma lower_ascii_idemp (c : ascii) : lower_ascii (lower_ascii c) = lower_ascii c.
Proof. destruct c as [[] [] [] [] [] [] [] []]; reflexivity. Qed.

Lemma lower_idemp (s : string) : lower (lower s) = lower s.
Proof.
  induction s as [|c s IH]; simpl; [reflexivity|].
  by rewrite lower_ascii_idemp, IH.
Qed.

Lemma format_loop_lower (f : string) (formats : list string) :
  format_loop (lower f) formats = format_loop f formats.
Proof.
  induction formats as [|frm rest IH]; simpl; [reflexivity|].
  by rewrite lower_idemp, IH.
Qed.

Lemma format_loop_true (f : string) (formats : list string) :
  format_loop f formats = true ↔ lower f ∈ lower <$> formats.
Proof.
  induction formats as [|frm rest IH]; simpl.
  - split; [discriminate | intros H; inversion H].
  - destruct (String.eqb_spec (lower f) (lower frm)) as [Heq|Hne].
    + split; [intros _; rewrite Heq; left | reflexivity].
    + rewrite IH. split; [by right|].
      intros H. apply elem_of_cons in H as [H|H]; [done | exact H].
Qed.

Lemma inkscape_format_lower (f : string) :
  _is_inkscape_format f = true ↔ lower f ∈ INKSCAPE_FORMATS.
Proof. unfold _is_inkscape_format. by rewrite format_loop_true. Qed.

Lemma pillow_format_lower (f : string) :
  _is_pillow_format f = true ↔ lower f ∈ PIL_FORMATS.
Proof. unfold _is_pillow_format. by rewrite format_loop_true. Qed.

Lemma formats_disjoint (f : string) :
  ¬ (_is_inkscape_format f = true ∧ _is_pillow_format f = true).
Proof.
  rewrite inkscape_format_lower, pillow_format_lower.
  unfold INKSCAPE_FORMATS, PIL_FORMATS. intros [Hi Hp].
  repeat (apply elem_of_cons in Hi as [Hi|Hi]);
    try (by apply elem_of_nil in Hi);
    rewrite Hi in Hp;
    repeat (apply elem_of_cons in Hp as [Hp|Hp]);
    try discriminate; by apply elem_of_nil in Hp.
Qed.

(** C7. The classification is total and exclusive, and does not depend on
    the case of the letters: a format is in exactly one of the three classes
    (the two table tests are never both true), and [f] is classified as its
    lowercase form is. *)
Theorem classify_total_exclusive_caseless (f : string) :
  classify f = classify (lower f)
  ∧ (classify f = Native ↔ _is_inkscape_format f = true)
  ∧ (classify f = Relay ↔ _is_pillow_format f = true)
  ∧ (classify f = Unsupported ↔
       _is_inkscape_format f = false ∧ _is_pillow_format f = false)
  ∧ ¬ (_is_inkscape_format f = true ∧ _is_pillow_format f = true).
Proof.
  split.
  { unfold classify, _is_inkscape_format, _is_pillow_format.
    by rewrite !format_loop_lower. }
  pose proof (formats_disjoint f) as Hdis.
  unfold classify.
  destruct (_is_inkscape_format f) eqn:Hi, (_is_pillow_format f) eqn:Hp;
    repeat split; try done; try (intros [? ?]; done); try (intros; exfalso; auto).
Qed.

Example classify_PNG : classify "PNG" = classify "png" ∧ classify "png" = Native.
Proof. split; reflexivity. Qed.

Example classify_Jpeg : classify "JpEg" = Relay.
Proof. reflexivity. Qed.

Example classify_webp : classify "webp" = Unsupported.
Proof. reflexivity. Qed.

(** ** The conversion of one file *)

Lemma bind_ok {A B} (m : M A) (k : A → M B) (st st' : state) (a : A) :
  m st = (Ok a, st') → bind m k st = k a st'.
Proof. intros H. unfold bind. by rewrite H. Qed.

Lemma not_lowercase_not_in (f : string) (formats : list string) :
  f ≠ lower f → lower <$> formats = formats → f ∉ formats.
Proof.
  intros Hne Hlow Hin. apply Hne.
  rewrite <- Hlow in Hin. apply list_elem_of_fmap in Hin as (g & -> & _).
  by rewrite lower_idemp.
Qed.

(** The command is handed to [subprocess.run] whether the program starts
    or not; nothing else changes when it does not. *)
Lemma run_command_commands (cmd : list string) (st : state) :
  commands (_run_command cmd st).2 = commands st ++ [cmd].
Proof. unfold _run_command. by destruct (spawn_failure cmd (files st)). Qed.

Lemma run_command_started (cmd : list string) (st : state) :
  spawn_failure cmd (files st) = None →
  _run_command cmd st
  = (Ok tt, State (rule_data st) (supplied_param st) (def_param st)
                  (run cmd (files st)) (stdout st) (commands st ++ [cmd])).
Proof. intros H. unfold _run_command. by rewrite H. Qed.

Lemma run_command_failed (cmd : list string) (st : state) (e : exn) :
  spawn_failure cmd (files st) = Some e →
  _run_command cmd st
  = (Raise e, State (rule_data st) (supplied_param st) (def_param st)
                    (files st) (stdout st) (commands st ++ [cmd])).
Proof. intros H. unfold _run_command. by rewrite H. Qed.

(** The native branch with a format that none of its four comparisons
    recognises: the command stays as it was before the branch. *)
Lemma native_unlisted_runs_base
    (inkscape_path src_svg_path out_img_path f : string)
    (size drawing_only : value) (st : state) :
  _is_inkscape_format f = true →
  f ∉ INKSCAPE_FORMATS →
  let cmd := [inkscape_path; "-f"; src_svg_path;
              if truthy drawing_only then "--export-area-drawing"
              else "--export-area-page"] in
  _convert_via_inkscape inkscape_path src_svg_path out_img_path f
    size drawing_only st
  = _run_command cmd st.
Proof.
  intros Hnat Hnot cmd.
  unfold _convert_via_inkscape. rewrite Hnat.
  destruct (String.eqb_spec f "png") as [->|_];
    [exfalso; apply Hnot; repeat constructor|].
  destruct (String.eqb_spec f "pdf") as [->|_];
    [exfalso; apply Hnot; repeat constructor|].
  destruct (String.eqb_spec f "ps") as [->|_];
    [exfalso; apply Hnot; repeat constructor|].
  destruct (String.eqb_spec f "eps") as [->|_];
    [exfalso; apply Hnot; repeat constructor|].
  subst cmd. by destruct (truthy drawing_only).
Qed.

(** C9. A format that matches a native one up to case without being in
    lowercase takes the native branch, none of the four comparisons with the
    lowercase names succeeds, and the command handed to the renderer is just
    the executable, the input file and the crop flag: no export flag, no
    output path, no size. With a renderer that starts, the call returns
    normally, the files being what that command made of them; the only
    exception the call can end in is the one [subprocess.run] raises for a
    program it cannot start, and the command it was given is the same. *)
Theorem mixed_case_native_runs_bare_command
    (inkscape_path src_svg_path out_img_path f : string)
    (size drawing_only : value) (st : state) :
  _is_inkscape_format f = true →
  f ≠ lower f →
  let cmd := [inkscape_path; "-f"; src_svg_path;
              if truthy drawing_only then "--export-area-drawing"
              else "--export-area-page"] in
  classify f = Native
  ∧ _convert_via_inkscape inkscape_path src_svg_path out_img_path f
      size drawing_only st
    = match spawn_failure cmd (files st) with
      | None =>
          (Ok tt, State (rule_data st) (supplied_param st) (def_param st)
                        (run cmd (files st)) (stdout st) (commands st ++ [cmd]))
      | Some e =>
          (Raise e, State (rule_data st) (supplied_param st) (def_param st)
                          (files st) (stdout st) (commands st ++ [cmd]))
      end.
Proof.
  intros Hnat Hcase cmd. split.
  { unfold classify. by rewrite Hnat. }
  rewrite native_unlisted_runs_base;
    [|done|by apply not_lowercase_not_in].
  unfold _run_command. by destruct (spawn_failure _ (files st)).
Qed.


(** What the [finally] suite establishes from any state holds when the
    whole statement is left. *)
Lemma try_except_finally_post {A} (P : state → Prop) (body : M A)
    (handled : exn → bool) (handler : M A) (final : M unit) (st : state) :
  (∀ s, P (final s).2) → P (try_except_finally body handled handler final st).2.
Proof.
  intros Hfin. unfold try_except_finally.
  destruct (body st) as [r1 st1].
  destruct (match r1 with
            | Raise e => if handled e then handler st1 else (r1, st1)
            | _ => (r1, st1)
            end) as [r2 st2].
  specialize (Hfin st2). by destruct (final st2) as [[| |] st3].
Qed.

Lemma preserves_bind {A B X} (f : state → X) (m : M A) (k : A → M B) :
  preserves f m → (∀ a, preserves f (k a)) → preserves f (bind m k).
Proof.
  intros Hm Hk st. unfold bind. specialize (Hm st).
  destruct (m st) as [[a|e|z] st']; simpl in *; try done.
  by rewrite Hk.
Qed.

Lemma preserves_try_except_finally {A X} (f : state → X) (body : M A)
    (handled : exn → bool) (handler : M A) (final : M unit) :
  preserves f body → preserves f handler → preserves f final →
  preserves f (try_except_finally body handled handler final).
Proof.
  intros Hb Hh Hf st. unfold try_except_finally.
  specialize (Hb st). destruct (body st) as [r1 st1]; simpl in Hb.
  assert (Hq : ∀ r2 st2,
             match r1 with
             | Raise e => if handled e then handler st1 else (r1, st1)
             | _ => (r1, st1)
             end = (r2, st2) → f st2 = f st).
  { intros r2 st2 Heq. destruct r1 as [a|e|z]; try (by inversion Heq; subst).
    destruct (handled e); [|by inversion Heq; subst].
    specialize (Hh st1). rewrite Heq in Hh. simpl in Hh. congruence. }
  destruct (match r1 with
            | Raise e => if handled e then handler st1 else (r1, st1)
            | _ => (r1, st1)
            end) as [r2 st2].
  specialize (Hq r2 st2 eq_refl). specialize (Hf st2).
  destruct (final st2) as [[| |] st3]; simpl in *; congruence.
Qed.

Lemma preserves_for_each {A X} (f : state → X) (xs : list A) (body : A → M unit) :
  (∀ x, preserves f (body x)) → preserves f (for_each xs body).
Proof.
  intros Hbody. induction xs as [|x rest IH]; simpl; [done|].
  apply preserves_bind; [apply Hbody | intros _; apply IH].
Qed.

Lemma preserves_ret {A X} (f : state → X) (a : A) : preserves f (ret a).
Proof. done. Qed.

Lemma preserves_raise {A X} (f : state → X) (e : exn) :
  preserves f (raise (A := A) e).
Proof. done. Qed.

Lemma preserves_os_remove {X} (f : state → X) (path : string) :
  (∀ fs st, f (set_files fs st) = f st) → preserves f (os_remove path).
Proof. intros Hf st. unfold os_remove. destruct (bool_decide _); simpl; auto. Qed.

Lemma preserves_open_rb {X} (f : state → X) (path : string) :
  preserves f (open_rb path).
Proof.
  apply preserves_bind; [done|].
  intros []; [apply preserves_ret | apply preserves_raise].
Qed.

(** The part of the relay branch after the renderer has run changes the
    files only. *)
Lemma preserves_transcode {X} (f : state → X) (out_img_path : string) :
  (∀ fs st, f (set_files fs st) = f st) →
  (∀ line st, f (print line st).2 = f st) →
  preserves f
    (try_except_finally
       ((if pillow_installed then ret tt else raise ImportError) ;;
        open_rb tempf_path ;;
        (λ st, let '(e, fs) := pillow_save tempf_path out_img_path (files st) in
               (match e with Some e => Raise e | None => Ok tt end,
                set_files fs st)))
       (λ e, match e with ImportError => true | _ => false end)
       (_report_error ImportError "Python3 Pillow library not found!")
       (os_remove tempf_path)).
Proof.
  intros Hfiles Hprint.
  apply preserves_try_except_finally; [| |by apply preserves_os_remove].
  - apply preserves_bind; [by destruct pillow_installed|]. intros _.
    apply preserves_bind; [apply preserves_open_rb|]. intros _ st.
    destruct (pillow_save tempf_path out_img_path (files st)) as [[e|] fs];
      simpl; apply Hfiles.
  - intros st. apply (Hprint _ st).
Qed.

Lemma quiet_transcode (out_img_path : string) :
  preserves commands
    (try_except_finally
       ((if pillow_installed then ret tt else raise ImportError) ;;
        open_rb tempf_path ;;
        (λ st, let '(e, fs) := pillow_save tempf_path out_img_path (files st) in
               (match e with Some e => Raise e | None => Ok tt end,
                set_files fs st)))
       (λ e, match e with ImportError => true | _ => false end)
       (_report_error ImportError "Python3 Pillow library not found!")
       (os_remove tempf_path)).
Proof. by apply preserves_transcode. Qed.

Lemma bind_run_command_commands {B} (cmd : list string) (k : unit → M B)
    (st : state) :
  (∀ u, preserves commands (k u)) →
  commands (bind (_run_command cmd) k st).2 = commands st ++ [cmd].
Proof.
  intros Hk. pose proof (run_command_commands cmd st) as Hrun.
  unfold bind. destruct (_run_command cmd st) as [[[]|e|z] st1]; try done.
  by rewrite Hk.
Qed.

Lemma os_remove_gone (path : string) (st : state) :
  path ∉ files (os_remove path st).2.
Proof.
  unfold os_remove. destruct (bool_decide_reflect (path ∈ files st)); simpl;
    [|done].
  rewrite elem_of_difference, elem_of_singleton. by intros [_ []].
Qed.


(** C5. The size flags by route. With a size pair [[w, h]]: ["png"] gets
    [-w w -h h] after its export flag; ["pdf"], ["ps"] and ["eps"] get their
    export flag and nothing else, the size being dropped; a relay format gets
    the flags after the export of the intermediate PNG. With no size
    ([None]) the command ends at the export flag on each of these routes.
    On the two routes left, whatever the size, a native format written in
    another case runs the command without any flag added, and an unsupported
    format runs no command. *)
Theorem size_flags_by_route
    (inkscape_path src_svg_path out_img_path f : string) (w h : atom)
    (drawing_only : value) (st : state) :
  let base := [inkscape_path; "-f"; src_svg_path;
               if truthy drawing_only then "--export-area-drawing"
               else "--export-area-page"] in
  let ran size :=
    commands (_convert_via_inkscape inkscape_path src_svg_path out_img_path f
                size drawing_only st).2 in
  (f = "png" →
     ran (VList [w; h])
       = commands st ++ [base ++ ["--export-png=" +:+ out_img_path;
                                  "-w"; py_str w; "-h"; py_str h]]
     ∧ ran (VAtom ANone)
       = commands st ++ [base ++ ["--export-png=" +:+ out_img_path]])
  ∧ (f ∈ ["pdf"; "ps"; "eps"] →
     ran (VList [w; h])
       = commands st ++ [base ++ ["--export-" +:+ f +:+ "=" +:+ out_img_path]]
     ∧ ran (VAtom ANone)
       = commands st ++ [base ++ ["--export-" +:+ f +:+ "=" +:+ out_img_path]])
  ∧ (classify f = Relay →
     ran (VList [w; h])
       = commands st ++ [base ++ ["--export-png=" +:+ tempf_path;
                                  "-w"; py_str w; "-h"; py_str h]]
     ∧ ran (VAtom ANone)
       = commands st ++ [base ++ ["--export-png=" +:+ tempf_path]])
  ∧ (∀ size, classify f = Native → f ∉ INKSCAPE_FORMATS →
     ran size = commands st ++ [base])
  ∧ (∀ size, classify f = Unsupported → ran size = commands st).
Proof.
  intros base ran. subst ran base.
  assert (Hrelay : ∀ size cmd,
            classify f = Relay →
            (if truthy size
             then with_size
                    ([inkscape_path; "-f"; src_svg_path;
                      if truthy drawing_only then "--export-area-drawing"
                      else "--export-area-page"]
                     ++ ["--export-png=" +:+ tempf_path]) size
             else ret ([inkscape_path; "-f"; src_svg_path;
                        if truthy drawing_only then "--export-area-drawing"
                        else "--export-area-page"]
                       ++ ["--export-png=" +:+ tempf_path])) st
              = (Ok cmd, st) →
            commands (_convert_via_inkscape inkscape_path src_svg_path
                        out_img_path f size drawing_only st).2
              = commands st ++ [cmd]).
  { intros size cmd Hf Hcmd. unfold classify in Hf.
    destruct (_is_inkscape_format f) eqn:Hi; [done|].
    destruct (_is_pillow_format f) eqn:Hp; [|done].
    unfold _convert_via_inkscape. rewrite Hi, Hp.
    destruct (truthy drawing_only);
      (erewrite bind_ok by exact Hcmd);
      apply bind_run_command_commands; intros _; apply quiet_transcode. }
  split; [|split; [|split; [|split]]].
  - intros ->. unfold _convert_via_inkscape. simpl.
    destruct (truthy drawing_only); split; apply run_command_commands.
  - intros Hf. repeat (apply elem_of_cons in Hf as [->|Hf]);
      try (by apply elem_of_nil in Hf);
      unfold _convert_via_inkscape; simpl;
      destruct (truthy drawing_only); split; apply run_command_commands.
  - intros Hf. split; apply Hrelay; try done; by destruct (truthy drawing_only).
  - intros size Hf Hnot. unfold classify in Hf.
    destruct (_is_inkscape_format f) eqn:Hi;
      [|by destruct (_is_pillow_format f)].
    rewrite native_unlisted_runs_base by done. apply run_command_commands.
  - intros size Hf. unfold classify in Hf.
    destruct (_is_inkscape_format f) eqn:Hi; [done|].
    destruct (_is_pillow_format f) eqn:Hp; [done|].
    unfold _convert_via_inkscape. by rewrite Hi, Hp.
Qed.


(** C4. On the relay route the intermediate PNG is gone when the conversion
    is left, whatever the renderer wrote, whether Pillow could be imported
    or not, and whether the save succeeded or raised: [pillow_installed],
    [pillow_save] and [run] are arbitrary here. The size is [None] (or
    another false value) or a list of at least two items, so that the
    command can be built and the renderer is reached. One command is handed
    to [subprocess.run]; if the renderer cannot even be started, the call
    ends there with the exception of [subprocess.run], before the [try]:
    no file has been written or removed. *)
Theorem relay_removes_intermediate
    (inkscape_path src_svg_path out_img_path f : string)
    (size drawing_only : value) (st : state) :
  classify f = Relay →
  truthy size = false ∨ (∃ w h rest, size = VList (w :: h :: rest)) →
  let after :=
    _convert_via_inkscape inkscape_path src_svg_path out_img_path f
      size drawing_only st in
  ∃ cmd,
    commands after.2 = commands st ++ [cmd]
    ∧ match spawn_failure cmd (files st) with
      | None => tempf_path ∉ files after.2
      | Some e =>
          after
          = (Raise e, State (rule_data st) (supplied_param st) (def_param st)
                            (files st) (stdout st) (commands st ++ [cmd]))
      end.
Proof.
  intros Hf Hsize after. subst after. unfold classify in Hf.
  destruct (_is_inkscape_format f) eqn:Hi; [done|].
  destruct (_is_pillow_format f) eqn:Hp; [|done].
  unfold _convert_via_inkscape. rewrite Hi, Hp.
  assert (Hcmd : ∀ cmd, ∃ cmd',
            (if truthy size then with_size cmd size else ret cmd) st
              = (Ok cmd', st)).
  { intros cmd. destruct Hsize as [->|(w & h & rest & ->)]; by eexists. }
  match goal with
  | |- context [bind (if truthy size then with_size ?c size else ret ?c)] =>
      destruct (Hcmd c) as [cmd' Hcmd']
  end.
  erewrite bind_ok by exact Hcmd'.
  exists cmd'. split.
  { apply bind_run_command_commands. intros _. apply quiet_transcode. }
  destruct (spawn_failure cmd' (files st)) as [e|] eqn:Hspawn.
  - unfold bind. by rewrite (run_command_failed cmd' st e).
  - unfold bind. rewrite (run_command_started cmd' st) by done.
    apply (try_except_finally_post (λ s, tempf_path ∉ files s)).
    intros s. apply os_remove_gone.
Qed.


(** ** Parameter resolution *)

Lemma first_block_other (p q : string) (bs : list block) (fp : block) :
  p ≠ q → first_block p bs fp !! q = fp !! q.
Proof.
  intros Hne. induction bs as [|b bs IH]; simpl; [done|].
  destruct (b !! p); [by rewrite lookup_insert_ne | exact IH].
Qed.

Lemma first_block_same (p : string) (bs : list block) (fp : block) :
  first_block p bs fp !! p
  = match (⋃ bs) !! p with Some v => Some v | None => fp !! p end.
Proof.
  induction bs as [|b bs IH]; simpl; [by rewrite lookup_empty|].
  destruct (b !! p) as [v|] eqn:Hb.
  - rewrite lookup_insert_eq. by rewrite (lookup_union_Some_l _ _ _ _ Hb).
  - by rewrite (lookup_union_r _ _ _ Hb).
Qed.

(** The resolved record is the left-biased union of the layers, cut down to
    the three fields. *)
Lemma resolve_lookup (bs : list block) (k : string) :
  resolve bs !! k = if decide (k ∈ params) then (⋃ bs) !! k else None.
Proof.
  unfold resolve, params. simpl.
  destruct (decide (k = "drawing_only")) as [->|Hd].
  { rewrite first_block_same. rewrite decide_True by (repeat constructor).
    destruct ((⋃ bs) !! "drawing_only"); [done|].
    rewrite first_block_other by done. rewrite first_block_other by done.
    apply lookup_empty. }
  rewrite first_block_other by done.
  destruct (decide (k = "format")) as [->|Hf].
  { rewrite first_block_same. rewrite decide_True by (repeat constructor).
    destruct ((⋃ bs) !! "format"); [done|].
    rewrite first_block_other by done. apply lookup_empty. }
  rewrite first_block_other by done.
  destruct (decide (k = "size")) as [->|Hs].
  { rewrite first_block_same. rewrite decide_True by (repeat constructor).
    by destruct ((⋃ bs) !! "size"). }
  rewrite first_block_other by done. rewrite lookup_empty.
  rewrite decide_False; [done|]. intros Hk.
  repeat (apply elem_of_cons in Hk as [Hk|Hk]); try done.
  by apply elem_of_nil in Hk.
Qed.

Lemma union_list_first (bs : list block) (p : string) (i : nat) (blk : block)
    (v : value) :
  bs !! i = Some blk →
  blk !! p = Some v →
  (∀ j b, (j < i)%nat → bs !! j = Some b → b !! p = None) →
  (⋃ bs) !! p = Some v.
Proof.
  revert i. induction bs as [|b bs IH]; intros i Hi Hv Hbefore; [done|].
  simpl. destruct i as [|i]; simpl in Hi.
  - inversion Hi; subst. by apply lookup_union_Some_l.
  - rewrite lookup_union_r by (apply (Hbefore 0%nat); [lia | done]).
    apply (IH i); [done..|].
    intros j b' Hj Hb'. apply (Hbefore (S j)); [lia | done].
Qed.

Lemma def_param_literal_full (p : string) :
  p ∈ params → is_Some (def_param_literal !! p).
Proof.
  unfold params. intros Hp.
  repeat (apply elem_of_cons in Hp as [->|Hp]); try (by apply elem_of_nil in Hp);
    by eexists.
Qed.

(** What [curated_param] does to a block *)
Lemma curated_param_other (data : block) (k : string) :
  k ≠ "size" → curated_param data !! k = data !! k.
Proof.
  intros Hk. unfold curated_param. destruct (data !! "size") as [v|]; [|done].
  destruct (is_default v); [|done]. by rewrite lookup_insert_ne.
Qed.

Lemma curated_param_no_default (data : block) :
  (∀ v, data !! "size" = Some v → is_default v = false) →
  curated_param data = data.
Proof.
  intros H. unfold curated_param. destruct (data !! "size") as [v|]; [|done].
  by rewrite (H v eq_refl).
Qed.

Lemma curated_param_default (data : block) (v : value) :
  data !! "size" = Some v → is_default v = true →
  curated_param data = <["size" := VAtom ANone]> data.
Proof. intros Hv Hd. unfold curated_param. by rewrite Hv, Hd. Qed.

Lemma curated_param_idemp (data : block) :
  curated_param (curated_param data) = curated_param data.
Proof.
  apply curated_param_no_default. intros v.
  unfold curated_param. destruct (data !! "size") as [w|] eqn:Hw.
  - destruct (is_default w) eqn:Hd.
    + rewrite lookup_insert_eq. by intros [= <-].
    + rewrite Hw. by intros [= <-].
  - by rewrite Hw.
Qed.

(** The state and the layers of one resolution, spelt out *)
Lemma resolve_file_unfold (global_param : ref) (svg_file : string) (st : state) :
  resolve_file global_param svg_file st
  = match rule_data st !! svg_file with
    | Some data =>
        let st' := set_rule_data (<[svg_file := curated_param data]> (rule_data st)) st in
        (Ok (resolve [curated_param data; supplied_param st;
                      deref st' global_param; def_param st]), st')
    | None =>
        (Ok (resolve [∅; supplied_param st; deref st global_param; def_param st]), st)
    end.
Proof.
  unfold resolve_file, bind, bind_curated, get.
  destruct (rule_data st !! svg_file) as [data|]; simpl; [|done].
  by rewrite lookup_insert_eq.
Qed.


Lemma resolve_file_state (global_param : ref) (svg_file : string) (st : state) :
  (resolve_file global_param svg_file st).2
  = match rule_data st !! svg_file with
    | Some data =>
        set_rule_data (<[svg_file := curated_param data]> (rule_data st)) st
    | None => st
    end.
Proof.
  rewrite resolve_file_unfold. by destruct (rule_data st !! svg_file).
Qed.

Lemma resolve_file_ok (global_param : ref) (svg_file : string) (st : state) :
  ∃ final_param,
    resolve_file global_param svg_file st
    = (Ok final_param, (resolve_file global_param svg_file st).2).
Proof.
  rewrite resolve_file_unfold.
  destruct (rule_data st !! svg_file); by eexists.
Qed.

Lemma resolve_file_populated (global_param : ref) (svg_file : string)
    (st : state) (final_param : block) (param : string) :
  def_param st = def_param_literal →
  param ∈ params →
  (resolve_file global_param svg_file st).1 = Ok final_param →
  is_Some (final_param !! param).
Proof.
  intros Hdef Hparam. rewrite resolve_file_unfold, Hdef.
  destruct (def_param_literal_full param Hparam) as [d Hd].
  destruct (rule_data st !! svg_file) as [data|]; simpl; intros [= <-];
    rewrite resolve_lookup, decide_True by done; simpl.
  - destruct ((curated_param data ∪ (supplied_param st ∪
                 (deref (set_rule_data
                           (<[svg_file := curated_param data]> (rule_data st)) st)
                        global_param ∪ (def_param_literal ∪ ∅)))) !! param)
      as [v|] eqn:Hv; [by eexists|].
    exfalso. do 3 (apply lookup_union_None in Hv as [_ Hv]).
    apply lookup_union_None in Hv as [Hv _]. congruence.
  - destruct ((∅ ∪ (supplied_param st ∪ (deref st global_param ∪
                 (def_param_literal ∪ ∅)))) !! param)
      as [v|] eqn:Hv; [by eexists|].
    exfalso. do 3 (apply lookup_union_None in Hv as [_ Hv]).
    apply lookup_union_None in Hv as [Hv _]. congruence.
Qed.

Lemma default_size_in_file_block (global_param : ref) (svg_file : string)
    (st : state) (data : block) (v : value) :
  rule_data st !! svg_file = Some data →
  data !! "size" = Some v →
  is_default v = true →
  let without :=
    set_rule_data (<[svg_file := delete "size" data]> (rule_data st)) st in
  ∃ with_default st1 with_absent st2,
    resolve_file global_param svg_file st = (Ok with_default, st1)
    ∧ resolve_file global_param svg_file without = (Ok with_absent, st2)
    ∧ with_default = <["size" := VAtom ANone]> with_absent
    ∧ (with_default = with_absent ↔ with_absent !! "size" = Some (VAtom ANone)).
Proof.
  intros Hdata Hsize Hdef without.
  rewrite !resolve_file_unfold. subst without. simpl.
  rewrite Hdata, lookup_insert_eq.
  eexists _, _, _, _. split; [reflexivity|]. split; [reflexivity|].
  rewrite (curated_param_default data v Hsize Hdef).
  rewrite (curated_param_no_default (delete "size" data))
    by (intros w; by rewrite lookup_delete_eq).
  rewrite insert_insert_eq.
  match goal with |- ?l = <[_:=_]> ?r ∧ _ => assert (Heq : l = <["size" := VAtom ANone]> r) end.
  { apply map_eq. intros k. destruct (decide (k = "size")) as [->|Hk].
    - rewrite lookup_insert_eq, resolve_lookup, decide_True by (repeat constructor).
      simpl. apply lookup_union_Some_l. apply lookup_insert_eq.
    - rewrite lookup_insert_ne by done. rewrite !resolve_lookup.
      destruct (decide (k ∈ params)); [|done]. simpl.
      rewrite !lookup_union, lookup_insert_ne, lookup_delete_ne by done.
      do 2 f_equal.
      destruct global_param as [key| | |]; simpl; try done.
      destruct (decide (key = svg_file)) as [->|Hkey].
      + rewrite !lookup_insert_eq. simpl.
        by rewrite lookup_insert_ne, lookup_delete_ne.
      + by rewrite !lookup_insert_ne. }
  split; [exact Heq|]. rewrite Heq. split.
  - intros H. rewrite <- H. apply lookup_insert_eq.
  - intros H. by apply insert_id.
Qed.

Lemma default_size_in_global_block (svg_file : string) (st : state)
    (data : block) (v : value) :
  rule_data st !! "_globalrule_" = Some data →
  data !! "size" = Some v →
  is_default v = true →
  svg_file ≠ "_globalrule_" →
  def_param st = def_param_literal →
  let without :=
    set_rule_data (<["_globalrule_" := delete "size" data]> (rule_data st)) st in
  let resolved s :=
    (resolve_file (InRules "_globalrule_") svg_file
       (bind_curated "_globalrule_" Fresh s).2).1 in
  resolved st = resolved without.
Proof.
  intros Hdata Hsize Hdef Hne Hlit without resolved. subst resolved without.
  assert (Hne' : "_globalrule_" ≠ svg_file) by done.
  unfold bind_curated. simpl. rewrite Hdata, lookup_insert_eq. simpl.
  rewrite insert_insert_eq.
  rewrite (curated_param_default data v Hsize Hdef).
  rewrite (curated_param_no_default (delete "size" data))
    by (intros w; by rewrite lookup_delete_eq).
  rewrite !resolve_file_unfold. simpl.
  rewrite !(lookup_insert_ne _ _ _ _ Hne').
  rewrite Hlit.
  assert (Hunion : ∀ (l s : block) k,
            (l ∪ (s ∪ (<["size" := VAtom ANone]> data ∪ (def_param_literal ∪ ∅)))) !! k
            = (l ∪ (s ∪ (delete "size" data ∪ (def_param_literal ∪ ∅)))) !! k).
  { intros l s k. rewrite !lookup_union. do 2 f_equal.
    destruct (decide (k = "size")) as [->|Hk].
    - by rewrite lookup_insert_eq, lookup_delete_eq.
    - by rewrite lookup_insert_ne, lookup_delete_ne. }
  destruct (rule_data st !! svg_file) as [b|]; simpl;
    apply (f_equal (@Ok block));
    apply map_eq; intros k; rewrite !resolve_lookup;
    destruct (decide (k ∈ params)); try done; simpl.
  - rewrite !(lookup_insert_ne _ svg_file "_globalrule_") by done.
    rewrite !lookup_insert_eq. simpl. apply Hunion.
  - rewrite !lookup_insert_eq. simpl. apply Hunion.
Qed.

(** C3, as the code has it. [curated_param] keeps the key ["size"] and
    stores [None] under it. In a file's rule block a size of ["default"]
    is therefore not the same as no size: it wins over every lower layer,
    and the resolved record is the one obtained without the key with its
    size set to [None]; the two records are equal exactly when the lower
    layers resolve the size to [None] themselves. In the global rule block
    of another file's resolution the two are the same, the only lower
    layer being the default block, whose size is [None]. *)
Theorem default_size_is_none_not_absent (svg_file : string) (st : state)
    (data : block) (v : value) :
  data !! "size" = Some v →
  is_default v = true →
  (∀ global_param,
     rule_data st !! svg_file = Some data →
     let without :=
       set_rule_data (<[svg_file := delete "size" data]> (rule_data st)) st in
     ∃ with_default st1 with_absent st2,
       resolve_file global_param svg_file st = (Ok with_default, st1)
       ∧ resolve_file global_param svg_file without = (Ok with_absent, st2)
       ∧ with_default = <["size" := VAtom ANone]> with_absent
       ∧ (with_default = with_absent ↔
            with_absent !! "size" = Some (VAtom ANone)))
  ∧ (rule_data st !! "_globalrule_" = Some data →
     svg_file ≠ "_globalrule_" →
     def_param st = def_param_literal →
     let without :=
       set_rule_data (<["_globalrule_" := delete "size" data]> (rule_data st)) st in
     let resolved s :=
       (resolve_file (InRules "_globalrule_") svg_file
          (bind_curated "_globalrule_" Fresh s).2).1 in
     resolved st = resolved without).
Proof.
  intros Hsize Hdef. split.
  - intros global_param Hdata. by eapply default_size_in_file_block.
  - intros Hdata Hne Hlit. by eapply default_size_in_global_block.
Qed.


(** ** What the batch does to the objects it resolves from *)

Lemma normalised_refl (rd : rule_document) : normalised rd rd.
Proof. intros key. by left. Qed.

Lemma normalised_trans (rd1 rd2 rd3 : rule_document) :
  normalised rd1 rd2 → normalised rd2 rd3 → normalised rd1 rd3.
Proof.
  intros H12 H23 key. destruct (H23 key) as [->| ->], (H12 key) as [->| ->];
    auto.
  right. destruct (rd1 !! key); simpl; [|done]. by rewrite curated_param_idemp.
Qed.

Lemma normalised_insert (rd : rule_document) (key : string) (data : block) :
  rd !! key = Some data → normalised rd (<[key := curated_param data]> rd).
Proof.
  intros Hdata k. destruct (decide (k = key)) as [->|Hk].
  - right. by rewrite lookup_insert_eq, Hdata.
  - left. by rewrite lookup_insert_ne.
Qed.

Lemma normalised_no_default (rd rd' : rule_document) :
  (∀ key data v, rd !! key = Some data → data !! "size" = Some v →
                 is_default v = false) →
  normalised rd rd' → rd' = rd.
Proof.
  intros Hno Hn. apply map_eq. intros key. destruct (Hn key) as [->| ->]; [done|].
  destruct (rd !! key) as [data|] eqn:Hdata; simpl; [|done].
  rewrite curated_param_no_default; [done|]. intros v. by apply (Hno key).
Qed.

Lemma with_size_preserves {X} (f : state → X) (cmd : list string) (size : value) :
  preserves f (with_size cmd size).
Proof.
  assert (Hsub : ∀ i, preserves f (subscript size i)).
  { intros i st. unfold subscript. destruct size as [[| | |s]|items]; try done.
    - by destruct (String.get i s).
    - by destruct (items !! i). }
  apply preserves_bind; [apply Hsub|]. intros w.
  apply preserves_bind; [apply Hsub|]. intros h. apply preserves_ret.
Qed.

Lemma run_command_params (cmd : list string) :
  preserves param_objects (_run_command cmd).
Proof.
  intros st. unfold _run_command. by destruct (spawn_failure cmd (files st)).
Qed.

Lemma convert_preserves_params
    (inkscape_path src_svg_path out_img_path f : string)
    (size drawing_only : value) :
  preserves param_objects
    (_convert_via_inkscape inkscape_path src_svg_path out_img_path f
       size drawing_only).
Proof.
  unfold _convert_via_inkscape.
  destruct (_is_inkscape_format f).
  { apply preserves_bind; [|apply run_command_params].
    destruct (String.eqb f "png").
    { destruct (truthy size); [apply with_size_preserves | apply preserves_ret]. }
    repeat (match goal with |- context [if ?b then _ else _] => destruct b end;
            try apply preserves_ret). }
  destruct (_is_pillow_format f); [|done].
  apply preserves_bind.
  { destruct (truthy size); [apply with_size_preserves | apply preserves_ret]. }
  intros cmd. apply preserves_bind; [apply run_command_params|]. intros _.
  by apply preserves_transcode.
Qed.

Lemma export_file_params (inkscape_path src_dir out_dir : string)
    (global_param : ref) (svg_file : string) (st : state) :
  param_objects (export_file inkscape_path src_dir out_dir global_param svg_file st).2
  = param_objects (resolve_file global_param svg_file st).2.
Proof.
  unfold export_file.
  destruct (resolve_file_ok global_param svg_file st) as [final_param Hres].
  erewrite bind_ok by exact Hres.
  generalize ((resolve_file global_param svg_file st).2). intros st1.
  assert (Hget : ∀ k, preserves param_objects (getitem final_param k)).
  { intros k st2. unfold getitem. by destruct (final_param !! k). }
  revert st1.
  apply (preserves_bind param_objects); [apply Hget|]. intros fmt.
  apply (preserves_bind param_objects).
  { intros st1. unfold concat_operand. by destruct fmt as [[| | |ext]|items]. }
  intros ext.
  apply (preserves_bind param_objects); [apply Hget|]. intros size.
  apply (preserves_bind param_objects); [apply Hget|]. intros drawing_only.
  apply (preserves_bind param_objects); [apply convert_preserves_params|].
  by intros _.
Qed.

Lemma export_loop_params (inkscape_path src_dir out_dir : string)
    (global_param : ref) (svg_files : list string) (st : state) :
  let st' := (for_each svg_files
                (export_file inkscape_path src_dir out_dir global_param) st).2 in
  supplied_param st' = supplied_param st
  ∧ def_param st' = def_param st
  ∧ normalised (rule_data st) (rule_data st').
Proof.
  revert st. induction svg_files as [|svg_file rest IH]; intros st; simpl.
  { repeat split. apply normalised_refl. }
  pose proof (export_file_params inkscape_path src_dir out_dir global_param
                svg_file st) as Hone.
  rewrite resolve_file_state in Hone.
  unfold bind.
  destruct (export_file inkscape_path src_dir out_dir global_param svg_file st)
    as [r st1] eqn:Hrun. simpl in Hone.
  assert (Hstep : supplied_param st1 = supplied_param st
                  ∧ def_param st1 = def_param st
                  ∧ normalised (rule_data st) (rule_data st1)).
  { unfold param_objects in Hone.
    destruct (rule_data st !! svg_file) as [data|] eqn:Hdata;
      inversion Hone as [[Hrd Hsup Hdef]]; repeat split; try done;
      rewrite Hrd.
    - by apply normalised_insert.
    - apply normalised_refl. }
  destruct r as [[]|e|z]; simpl; try exact Hstep.
  destruct (IH st1) as (Hsup & Hdef & Hnorm).
  destruct Hstep as (Hsup1 & Hdef1 & Hnorm1).
  repeat split; [congruence | congruence | by eapply normalised_trans].
Qed.

(** C8, as the code has it. Resolution writes to no block but a rule
    block, and only through [curated_param]: resolving a file leaves the
    supplied and default blocks and every other rule block as they were, and
    replaces the file's own block by its curated form; so does the binding
    of [global_param] to the global block at the start. The curated form
    differs from the block only when its size is ["default"] (the value
    becomes [None]). Over the loop the rule document changes by such
    replacements only, and a document without a ["default"] size is the
    same at the end. *)
Theorem resolution_only_curates_rule_blocks
    (inkscape_path src_dir out_dir : string) (global_param : ref)
    (svg_file : string) (svg_files : list string) (st : state) :
  (let st' := (resolve_file global_param svg_file st).2 in
   supplied_param st' = supplied_param st
   ∧ def_param st' = def_param st
   ∧ (∀ key, key ≠ svg_file → rule_data st' !! key = rule_data st !! key)
   ∧ rule_data st' !! svg_file = curated_param <$> rule_data st !! svg_file)
  ∧ (let st' := (bind_curated "_globalrule_" Fresh st).2 in
     supplied_param st' = supplied_param st
     ∧ def_param st' = def_param st
     ∧ normalised (rule_data st) (rule_data st'))
  ∧ (∀ data : block,
       curated_param data = data
       ∨ ∃ v, data !! "size" = Some v ∧ is_default v = true
              ∧ curated_param data = <["size" := VAtom ANone]> data)
  ∧ (let st' := (for_each svg_files
                   (export_file inkscape_path src_dir out_dir global_param) st).2 in
     supplied_param st' = supplied_param st
     ∧ def_param st' = def_param st
     ∧ normalised (rule_data st) (rule_data st')
     ∧ ((∀ key data v, rule_data st !! key = Some data →
                       data !! "size" = Some v → is_default v = false) →
        rule_data st' = rule_data st)).
Proof.
  split; [|split; [|split]].
  - rewrite resolve_file_state.
    destruct (rule_data st !! svg_file) as [data|] eqn:Hdata; simpl;
      repeat split; try done.
    + intros key Hkey. by rewrite lookup_insert_ne.
    + by rewrite lookup_insert_eq.
  - unfold bind_curated.
    destruct (rule_data st !! "_globalrule_") as [data|] eqn:Hdata; simpl;
      repeat split; try done.
    + by apply normalised_insert.
    + apply normalised_refl.
  - intros data. unfold curated_param.
    destruct (data !! "size") as [v|] eqn:Hv; [|by left].
    destruct (is_default v) eqn:Hd; [right; by exists v | by left].
  - destruct (export_loop_params inkscape_path src_dir out_dir global_param
                svg_files st) as (Hsup & Hdef & Hnorm).
    repeat split; try done. intros Hno. by apply normalised_no_default.
Qed.


(** ** The batch loop *)

Lemma for_each_app {A} (xs ys : list A) (body : A → M unit) (st : state) :
  for_each (xs ++ ys) body st
  = bind (for_each xs body) (λ _, for_each ys body) st.
Proof.
  revert st. induction xs as [|x xs IH]; intros st; simpl; [done|].
  unfold bind in *. destruct (body x st) as [[[]|e|z] st1]; [apply IH|done..].
Qed.

Lemma export_file_unsupported (inkscape_path src_dir out_dir : string)
    (global_param : ref) (svg_file : string) (st : state)
    (final_param : block) (fmt : string) :
  def_param st = def_param_literal →
  (resolve_file global_param svg_file st).1 = Ok final_param →
  final_param !! "format" = Some (VAtom (AStr fmt)) →
  classify fmt = Unsupported →
  export_file inkscape_path src_dir out_dir global_param svg_file st
  = (Exit 1,
     (print ("Unsupported file format to export: " +:+ fmt)
        (resolve_file global_param svg_file st).2).2).
Proof.
  intros Hdef Hres Hfmt Hclass.
  destruct (resolve_file_populated global_param svg_file st final_param "size"
              Hdef ltac:(repeat constructor) Hres) as [size Hsize].
  destruct (resolve_file_populated global_param svg_file st final_param
              "drawing_only" Hdef ltac:(repeat constructor) Hres) as [d Hd].
  destruct (resolve_file_ok global_param svg_file st) as [fp Hok].
  rewrite Hok in Hres. simpl in Hres. injection Hres as ->.
  unfold export_file. erewrite bind_ok by exact Hok.
  unfold getitem. rewrite Hfmt, Hsize, Hd.
  unfold classify in Hclass.
  destruct (_is_inkscape_format fmt) eqn:Hi; [done|].
  destruct (_is_pillow_format fmt) eqn:Hp; [done|].
  unfold bind, ret, concat_operand, _convert_via_inkscape. simpl.
  by rewrite Hi, Hp.
Qed.

(** C2, as the code has it. An unsupported format is reported through
    [_report_error], which ends the process: once the files before it have
    been converted, the file with the unsupported format prints the message
    and the batch stops with exit status 1. The commands run and the files
    are those left by the earlier files: nothing is run for this file, and
    the files after it are never reached. *)
Theorem unsupported_format_aborts_batch
    (inkscape_path src_dir out_dir : string) (global_param : ref)
    (before : list string) (svg_file : string) (after : list string)
    (st st1 : state) (final_param : block) (fmt : string) :
  def_param st = def_param_literal →
  for_each before (export_file inkscape_path src_dir out_dir global_param) st
    = (Ok tt, st1) →
  (resolve_file global_param svg_file st1).1 = Ok final_param →
  final_param !! "format" = Some (VAtom (AStr fmt)) →
  classify fmt = Unsupported →
  ∃ st',
    for_each (before ++ svg_file :: after)
      (export_file inkscape_path src_dir out_dir global_param) st
      = (Exit 1, st')
    ∧ stdout st' = stdout st1 ++ ["Unsupported file format to export: " +:+ fmt]
    ∧ commands st' = commands st1
    ∧ files st' = files st1.
Proof.
  intros Hdef Hbefore Hres Hfmt Hclass.
  assert (Hdef1 : def_param st1 = def_param_literal).
  { destruct (export_loop_params inkscape_path src_dir out_dir global_param
                before st) as (_ & Hd & _).
    rewrite Hbefore in Hd. simpl in Hd. congruence. }
  eexists. split.
  { rewrite for_each_app. erewrite bind_ok by exact Hbefore. simpl.
    unfold bind at 1.
    by rewrite (export_file_unsupported inkscape_path src_dir out_dir
                  global_param svg_file st1 final_param fmt). }
  rewrite resolve_file_state.
  by destruct (rule_data st1 !! svg_file).
Qed.

(** ** The listing of the source directory *)

Lemma listing_loop (names : list string) (entries : list string) :
  foldl (λ names file_name,
           if endswith file_name ".svg"
           then names ++ [split_head ".svg" file_name]
           else names)
        names entries
  = names ++ List.map (split_head ".svg")
               (List.filter (λ file_name, endswith file_name ".svg") entries).
Proof.
  revert names. induction entries as [|e entries IH]; intros names; simpl.
  - by rewrite app_nil_r.
  - rewrite IH. destruct (endswith e ".svg"); simpl; [|done].
    by rewrite <- app_assoc.
Qed.

Lemma build_svg_filenames_unfold (dirpath : string) (st : state) :
  _build_svg_filenames dirpath st
  = match List.map (split_head ".svg")
            (List.filter (λ file_name, endswith file_name ".svg")
               (listdir dirpath)) with
    | [] => (Exit 1, (print ("No SVG file found in " +:+ dirpath) st).2)
    | stem :: stems =>
        (Ok (stem :: stems),
         (print (pretty (S (length stems)) +:+ " SVG files found") st).2)
    end.
Proof.
  unfold _build_svg_filenames. rewrite listing_loop. simpl.
  by destruct (List.map _ _).
Qed.

(** ** Resolution inside a batch *)

Lemma bind_ok_inv {A B} (m : M A) (k : A → M B) (st st' : state) (b : B) :
  bind m k st = (Ok b, st') →
  ∃ a st1, m st = (Ok a, st1) ∧ k a st1 = (Ok b, st').
Proof.
  unfold bind. destruct (m st) as [[a|e|z] st1]; intros H; [|done..].
  by exists a, st1.
Qed.

Lemma rules_file_read (json_filename : string) (st st' : state)
    (rd : rule_document) :
  _build_data_from_json json_filename st = (Ok rd, st') →
  json_load json_filename = inl rd ∧ st' = st.
Proof.
  unfold _build_data_from_json, _resolve_path, isfile, get, bind,
    _report_error, print, sys_exit, raise, ret.
  simpl. destruct (bool_decide (json_filename ∈ files st)); simpl; [|done].
  destruct (json_load json_filename) as [d|[]]; simpl; try done.
  by intros [= -> ->].
Qed.

Lemma curated_param_empty : curated_param ∅ = ∅.
Proof. unfold curated_param. by rewrite lookup_empty. Qed.

(** [curated_param] seen from a key: only a ["default"] under ["size"]
    reads differently afterwards. *)
Lemma curated_param_lookup (data : block) (k : string) :
  curated_param data !! k
  = (λ v, if String.eqb k "size" && is_default v then VAtom ANone else v)
      <$> data !! k.
Proof.
  destruct (String.eqb_spec k "size") as [->|Hk].
  - unfold curated_param. destruct (data !! "size") as [v|] eqn:Hv.
    + destruct (is_default v) eqn:Hd; simpl.
      * by rewrite lookup_insert_eq, Hd.
      * by rewrite Hv, Hd.
    + by rewrite Hv.
  - rewrite curated_param_other by done. by destruct (data !! k).
Qed.

Lemma normalised_curated (rd rd' : rule_document) (key : string) :
  normalised rd rd' →
  curated_param <$> rd' !! key = curated_param <$> rd !! key.
Proof.
  intros Hn. destruct (Hn key) as [->| ->]; [done|].
  destruct (rd !! key); simpl; [|done]. by rewrite curated_param_idemp.
Qed.

(** What the part of [export_svg] before the loop hands to the loop, when
    it gets there: the default block, the supplied block built from the
    arguments, and the rule document as loaded, its global block curated;
    [global_param] is that block, or [{}] when there is none. *)
Lemma export_svg_setup_ok (src_dir out_dir : string)
    (json_rules_file file_format : option string) (size : option value)
    (drawing_only : option bool) (inkscape_path : string) (st : state)
    (ink : string) (svg_files : list string) (global_param : ref)
    (st0 : state) :
  export_svg_setup src_dir out_dir json_rules_file file_format size
    drawing_only inkscape_path st
  = (Ok (ink, svg_files, global_param), st0) →
  let loaded := loaded_rules json_rules_file in
  def_param st0 = def_param_literal
  ∧ supplied_param st0 = build_supplied_param file_format size drawing_only
  ∧ rule_data st0
    = match loaded !! "_globalrule_" with
      | Some data => <["_globalrule_" := curated_param data]> loaded
      | None => loaded
      end
  ∧ global_param
    = match loaded !! "_globalrule_" with
      | Some _ => InRules "_globalrule_"
      | None => Fresh
      end.
Proof.
  intros H loaded. unfold export_svg_setup in H.
  apply bind_ok_inv in H as (src_ok & s1 & _ & H).
  apply bind_ok_inv in H as (out_ok & s2 & _ & H).
  apply bind_ok_inv in H as (rules_ok & s3 & _ & H).
  apply bind_ok_inv in H as (ink' & s4 & _ & H).
  apply bind_ok_inv in H as ([] & s5 & [= <-] & H).
  apply bind_ok_inv in H as ([] & s6 & [= <-] & H).
  apply bind_ok_inv in H as ([] & s7 & [= <-] & H).
  apply bind_ok_inv in H as (stems & s8 & Hstems & H).
  rewrite build_svg_filenames_unfold in Hstems.
  destruct (List.map _ _) as [|stem rest]; [done|].
  injection Hstems as <- <-.
  apply bind_ok_inv in H as ([] & s9 & Hload & H).
  assert (Hs9 : param_objects s9 = (loaded, ∅, def_param_literal)).
  { subst loaded. unfold loaded_rules.
    destruct json_rules_file as [f|].
    - apply bind_ok_inv in Hload as (rd & s & Hrd & [= <-]).
      apply rules_file_read in Hrd as [-> ->]. reflexivity.
    - injection Hload as <-. reflexivity. }
  unfold param_objects in Hs9. injection Hs9 as Hrd Hsup Hdef.
  apply bind_ok_inv in H as (g & s10 & Hglobal & H).
  apply bind_ok_inv in H as ([] & s11 & [= <-] & H).
  injection H as <- <- <- <-.
  unfold bind_curated in Hglobal. rewrite Hrd in Hglobal.
  destruct (loaded !! "_globalrule_") as [data|];
    injection Hglobal as <- <-; simpl; by rewrite ?Hrd, ?Hdef.
Qed.

(** The record of a file of the batch, from what was loaded and
    supplied: the blocks the loop resolves from are the file's rule block
    and the global rule block, both as [curated_param] leaves them, with
    the supplied block between them and the default block last. *)
Lemma resolve_file_at_iteration (src_dir out_dir : string)
    (json_rules_file file_format : option string) (size : option value)
    (drawing_only : option bool) (inkscape_path : string) (st : state)
    (ink : string) (svg_files : list string) (global_param : ref)
    (st0 : state) (svg_file : string) (st1 : state) :
  export_svg_setup src_dir out_dir json_rules_file file_format size
    drawing_only inkscape_path st
  = (Ok (ink, svg_files, global_param), st0) →
  at_iteration svg_files (export_file ink src_dir out_dir global_param) st0
    svg_file st1 →
  let loaded := loaded_rules json_rules_file in
  supplied_param st1 = build_supplied_param file_format size drawing_only
  ∧ def_param st1 = def_param_literal
  ∧ ∃ st2,
      resolve_file global_param svg_file st1
      = (Ok (resolve
               [curated_param (default ∅ (loaded !! svg_file));
                build_supplied_param file_format size drawing_only;
                curated_param (default ∅ (loaded !! "_globalrule_"));
                def_param_literal]), st2).
Proof.
  intros Hsetup (before & after & -> & Hbefore) loaded.
  destruct (export_svg_setup_ok _ _ _ _ _ _ _ _ _ _ _ _ Hsetup)
    as (Hdef & Hsup & Hrd & Hglobal).
  fold loaded in Hrd, Hglobal.
  destruct (export_loop_params ink src_dir out_dir global_param before st0)
    as (Hsup1 & Hdef1 & Hnorm1).
  rewrite Hbefore in Hsup1, Hdef1, Hnorm1. simpl in Hsup1, Hdef1, Hnorm1.
  rewrite Hsup in Hsup1. rewrite Hdef in Hdef1.
  assert (Hnorm : normalised loaded (rule_data st1)).
  { apply (normalised_trans _ (rule_data st0)); [|done]. rewrite Hrd.
    destruct (loaded !! "_globalrule_") as [data|] eqn:Hdata;
      [by apply normalised_insert | apply normalised_refl]. }
  assert (Hcur : ∀ key, curated_param <$> rule_data st1 !! key
                        = curated_param <$> loaded !! key)
    by (intros key; by apply normalised_curated).
  assert (Hg : rule_data st1 !! "_globalrule_"
               = curated_param <$> loaded !! "_globalrule_").
  { destruct (Hnorm1 "_globalrule_") as [Heq|Heq]; rewrite Heq, Hrd;
      destruct (loaded !! "_globalrule_") as [data|] eqn:Hdata;
      rewrite ?lookup_insert_eq, ?Hdata; simpl; try done.
    by rewrite curated_param_idemp. }
  split; [done|]. split; [done|].
  rewrite resolve_file_unfold, Hsup1, Hdef1.
  assert (Hlocal : default ∅ (curated_param <$> rule_data st1 !! svg_file)
                   = curated_param (default ∅ (loaded !! svg_file))).
  { rewrite Hcur. destruct (loaded !! svg_file); simpl;
      [done | by rewrite curated_param_empty]. }
  destruct (rule_data st1 !! svg_file) as [data|] eqn:Hdata;
    simpl in Hlocal; cbv zeta.
  - assert (Hd : deref (set_rule_data
                          (<[svg_file := curated_param data]> (rule_data st1))
                          st1) global_param
                 = curated_param (default ∅ (loaded !! "_globalrule_"))).
    { rewrite Hglobal.
      destruct (loaded !! "_globalrule_") as [gdata|] eqn:Hgdata; simpl;
        [|by rewrite curated_param_empty].
      destruct (decide (svg_file = "_globalrule_")) as [->|Hne].
      - rewrite lookup_insert_eq. simpl. rewrite Hlocal, Hgdata. done.
      - rewrite lookup_insert_ne by done. by rewrite Hg. }
    rewrite Hd, Hlocal. by eexists.
  - assert (Hd : deref st1 global_param
                 = curated_param (default ∅ (loaded !! "_globalrule_"))).
    { rewrite Hglobal.
      destruct (loaded !! "_globalrule_") as [gdata|] eqn:Hgdata; simpl;
        [by rewrite Hg | by rewrite curated_param_empty]. }
    rewrite Hd, <- Hlocal. by eexists.
Qed.

(** C1, as the code has it. In a batch, the four layers of a file are its
    own block in the rule document that was loaded (or [{}]), the block
    built from the arguments of [export_svg], the global block of that
    document (or [{}]) and the default block. For each of the three fields
    the record the loop builds for the file holds a value, and it comes
    from the first of these layers that has the field. It is that layer's
    value, with one exception: in the two blocks that come from the rules,
    a size of ["default"] has been replaced by [None], so [None] is what
    the record holds then. The same string in the supplied block is
    passed on as it is. *)
Theorem precedence_law (src_dir out_dir : string)
    (json_rules_file file_format : option string) (size : option value)
    (drawing_only : option bool) (inkscape_path : string) (st : state)
    (ink : string) (svg_files : list string) (global_param : ref)
    (st0 : state) (svg_file : string) (st1 : state) (param : string) :
  export_svg_setup src_dir out_dir json_rules_file file_format size
    drawing_only inkscape_path st
  = (Ok (ink, svg_files, global_param), st0) →
  at_iteration svg_files (export_file ink src_dir out_dir global_param) st0
    svg_file st1 →
  param ∈ params →
  let loaded := loaded_rules json_rules_file in
  let layers :=
    [default ∅ (loaded !! svg_file);
     build_supplied_param file_format size drawing_only;
     default ∅ (loaded !! "_globalrule_");
     def_param_literal] in
  ∃ final_param st2,
    resolve_file global_param svg_file st1 = (Ok final_param, st2)
    ∧ is_Some (final_param !! param)
    ∧ ∀ i layer v,
        layers !! i = Some layer →
        layer !! param = Some v →
        (∀ j above, (j < i)%nat → layers !! j = Some above →
                    above !! param = None) →
        final_param !! param
        = Some (if ((i =? 0)%nat || (i =? 2)%nat)
                   && String.eqb param "size" && is_default v
                then VAtom ANone else v).
Proof.
  intros Hsetup Hiter Hparam loaded layers.
  destruct (resolve_file_at_iteration _ _ _ _ _ _ _ _ _ _ _ _ _ _ Hsetup Hiter)
    as (Hsup1 & Hdef1 & st2 & Hres).
  fold loaded in Hres.
  eexists _, st2. split; [exact Hres|]. split.
  { apply (resolve_file_populated global_param svg_file st1); [done..|].
    by rewrite Hres. }
  intros i layer v Hlayer Hv Habove.
  rewrite resolve_lookup, decide_True by done.
  set (rule_value := λ v : value,
         if String.eqb param "size" && is_default v then VAtom ANone else v).
  assert (Hrules : ∀ data : block,
            curated_param data !! param = rule_value <$> data !! param)
    by (intros data; apply curated_param_lookup).
  assert (Hnone : ∀ data : block,
            data !! param = None → curated_param data !! param = None)
    by (intros data Hd; by rewrite Hrules, Hd).
  subst layers.
  destruct i as [|[|[|[|i]]]]; simpl in Hlayer; try done;
    injection Hlayer as <-.
  - eapply (union_list_first _ _ 0%nat); [reflexivity|..].
    + rewrite Hrules, Hv. simpl. subst rule_value. simpl.
      by destruct (String.eqb param "size").
    + intros j b Hj. lia.
  - eapply (union_list_first _ _ 1%nat); [reflexivity|done|].
    intros [|j] b Hj Hb; simpl in Hb; [injection Hb as <-|lia].
    apply Hnone. apply (Habove 0%nat); [lia | reflexivity].
  - eapply (union_list_first _ _ 2%nat); [reflexivity|..].
    + rewrite Hrules, Hv. simpl. subst rule_value. simpl.
      by destruct (String.eqb param "size").
    + intros [|[|j]] b Hj Hb; simpl in Hb; [injection Hb as <-..|lia].
      * apply Hnone. apply (Habove 0%nat); [lia | reflexivity].
      * apply (Habove 1%nat); [lia | reflexivity].
  - eapply (union_list_first _ _ 3%nat); [reflexivity|..].
    + rewrite Hv. reflexivity.
    + intros [|[|[|j]]] b Hj Hb; simpl in Hb; [injection Hb as <-..|lia].
      * apply Hnone. apply (Habove 0%nat); [lia | reflexivity].
      * apply (Habove 1%nat); [lia | reflexivity].
      * apply Hnone. apply (Habove 2%nat); [lia | reflexivity].
Qed.

(** ** The command line *)

Lemma main_malformed_size (args : arguments) (a : string) (st : state) :
  given (args_drawing_only args) = None →
  given (args_size args) = Some a →
  length (split "," a) ≠ 2%nat →
  main args st
  = (Exit 0,
     (print ("Wrong argument supplied for --size parameter! "
             +:+ newline +:+ "Use --help or -h to get help") st).2).
Proof.
  intros Hd Hs Hlen. unfold main. rewrite Hd, Hs.
  apply Nat.eqb_neq in Hlen. unfold bind, ret. simpl. by rewrite Hlen.
Qed.

Lemma main_malformed_drawing_only (args : arguments) (a : string) (st : state) :
  given (args_drawing_only args) = Some a →
  lower a ∉ ["y"; "yes"; "n"; "no"] →
  main args st
  = (Exit 0,
     (print ("Wrong argument supplied for --drawing_only parameter! "
             +:+ newline +:+ "Use --help or -h to get help") st).2).
Proof.
  intros Hd Hbad. unfold main. rewrite Hd.
  destruct (String.eqb_spec (lower a) "y") as [Hy|_];
    [exfalso; apply Hbad; rewrite Hy; repeat constructor|].
  destruct (String.eqb_spec (lower a) "yes") as [Hy|_];
    [exfalso; apply Hbad; rewrite Hy; repeat constructor|].
  destruct (String.eqb_spec (lower a) "n") as [Hy|_];
    [exfalso; apply Hbad; rewrite Hy; repeat constructor|].
  destruct (String.eqb_spec (lower a) "no") as [Hy|_];
    [exfalso; apply Hbad; rewrite Hy; repeat constructor|].
  done.
Qed.

(** An option given as the empty string is taken as not given: [if
    args.size] is false for it, and the batch runs without a size. *)
Lemma empty_size_is_ignored (st : state) :
  main (Arguments "src" "out" None (Some "") None None None) st
  = export_svg "src" "out" None None None (Some true) "default" st.
Proof. reflexivity. Qed.

(** C6. Called with [--size 50], or with [--drawing_only maybe], the
    script prints its message and leaves through [sys.exit()], which ends
    the process with status 0; nothing has been converted. The other fatal
    errors go through [_report_error], whose [sys.exit(1)] gives status 1. *)
Theorem malformed_option_exits_with_status_zero (st : state) :
  main args_size_50 st
  = (Exit 0,
     State (rule_data st) (supplied_param st) (def_param st) (files st)
           (stdout st ++ ["Wrong argument supplied for --size parameter! "
                          +:+ newline +:+ "Use --help or -h to get help"])
           (commands st))
  ∧ main args_drawing_only_maybe st
  = (Exit 0,
     State (rule_data st) (supplied_param st) (def_param st) (files st)
           (stdout st ++ ["Wrong argument supplied for --drawing_only parameter! "
                          +:+ newline +:+ "Use --help or -h to get help"])
           (commands st)).
Proof.
  split.
  - by rewrite (main_malformed_size args_size_50 "50").
  - rewrite (main_malformed_drawing_only args_drawing_only_maybe "maybe");
      [done..|].
    intros H. repeat (apply elem_of_cons in H as [H|H]); try discriminate.
    by apply elem_of_nil in H.
Qed.



(** * Further properties of the script *)

(** ** Resolution *)

Lemma union_list_lookup_None (bs : list block) (p : string) :
  (⋃ bs) !! p = None ↔ ∀ b, b ∈ bs → b !! p = None.
Proof.
  induction bs as [|b bs IH]; simpl.
  - split; [intros _ b Hb; by apply elem_of_nil in Hb | intros _; apply lookup_empty].
  - rewrite lookup_union_None, IH. split.
    + intros [Hb Hbs] b' Hin. apply elem_of_cons in Hin as [->|Hin]; auto.
    + intros H. split; [apply H; left | intros b' Hin; apply H; by right].
Qed.

(** X1. The record built by the two nested loops has no key besides
    ["size"], ["format"] and ["drawing_only"], whatever other keys the
    blocks hold, and one of these three is missing from it exactly when no
    block has it. *)
Theorem resolved_record_fields (param_blocks : list block) :
  (∀ k, is_Some (resolve param_blocks !! k) → k ∈ params)
  ∧ (∀ param, param ∈ params →
       (resolve param_blocks !! param = None
        ↔ ∀ b, b ∈ param_blocks → b !! param = None)).
Proof.
  split.
  - intros k [v Hv]. rewrite resolve_lookup in Hv.
    by destruct (decide (k ∈ params)).
  - intros param Hparam. rewrite resolve_lookup, decide_True by done.
    apply union_list_lookup_None.
Qed.

(** X2. A rule stored under a key that is neither the file being resolved
    nor the block [global_param] refers to has no effect on the file's
    record: rules for drawings that are not there are ignored. *)
Theorem unmatched_rule_is_ignored (global_param : ref) (svg_file key : string)
    (b : block) (st : state) :
  key ≠ svg_file →
  global_param ≠ InRules key →
  (resolve_file global_param svg_file
     (set_rule_data (<[key := b]> (rule_data st)) st)).1
  = (resolve_file global_param svg_file st).1.
Proof.
  intros Hkey Hglobal. rewrite !resolve_file_unfold. simpl.
  rewrite lookup_insert_ne by done.
  assert (Hderef : ∀ st1 st2,
            (∀ k, k ≠ key → rule_data st1 !! k = rule_data st2 !! k) →
            supplied_param st1 = supplied_param st2 →
            def_param st1 = def_param st2 →
            deref st1 global_param = deref st2 global_param).
  { intros st1 st2 Hrd Hsup Hdef.
    destruct global_param as [k| | |]; simpl; try done.
    rewrite Hrd; [done|]. intros ->. by apply Hglobal. }
  destruct (rule_data st !! svg_file) as [data|]; simpl.
  - erewrite Hderef; [reflexivity| |done..]. simpl. intros k Hk.
    destruct (decide (k = svg_file)) as [->|Hne].
    + by rewrite !lookup_insert_eq.
    + by rewrite !lookup_insert_ne by done.
  - erewrite Hderef; [reflexivity| |done..]. simpl. intros k Hk.
    by rewrite lookup_insert_ne.
Qed.

(** X3. [curated_param] keeps the keys of the block and every value but
    the size; after it the size is never the string ["default"]; and
    applying it again changes nothing. *)
Theorem curated_param_invariants (data : block) :
  dom (curated_param data) = dom data
  ∧ (∀ k, k ≠ "size" → curated_param data !! k = data !! k)
  ∧ (∀ v, curated_param data !! "size" = Some v → is_default v = false)
  ∧ curated_param (curated_param data) = curated_param data.
Proof.
  split; [|split; [|split]].
  - unfold curated_param. destruct (data !! "size") as [v|] eqn:Hv; [|done].
    destruct (is_default v); [|done].
    rewrite dom_insert_L. apply elem_of_dom_2 in Hv.
    apply set_eq. intros k. rewrite elem_of_union, elem_of_singleton.
    split; [intros [->|H]; done | by right].
  - intros k Hk. by apply curated_param_other.
  - intros v. unfold curated_param.
    destruct (data !! "size") as [w|] eqn:Hw; [|by rewrite Hw].
    destruct (is_default w) eqn:Hd.
    + rewrite lookup_insert_eq. by intros [= <-].
    + rewrite Hw. by intros [= <-].
  - apply curated_param_idemp.
Qed.

(** ** Files, directories and the renderer *)

(** X4. The two existence checks return [True] or end the process: when
    the path is missing they print their message and exit with status 1,
    and the [return False] that follows [_report_error] is never reached.
    When the path is there they change nothing. *)
Theorem existence_checks_never_return_false (path : string) (st : state) :
  (_resolve_dir path st).1 ≠ Ok false
  ∧ (_resolve_path path st).1 ≠ Ok false
  ∧ (isdir path = true → _resolve_dir path st = (Ok true, st))
  ∧ (isdir path = false →
     _resolve_dir path st
     = (Exit 1, (print (path +:+ " is not a valid directory!") st).2))
  ∧ (path ∈ files st → _resolve_path path st = (Ok true, st))
  ∧ (path ∉ files st →
     _resolve_path path st
     = (Exit 1, (print (path +:+ " is not a valid file path!") st).2)).
Proof.
  unfold _resolve_dir, _resolve_path, isfile, get, bind. simpl.
  destruct (bool_decide_reflect (path ∈ files st)) as [Hin|Hout];
    destruct (isdir path); repeat split; try done.
Qed.

(** X5. [_get_inkscape_path] returns the first of the two paths of the
    operating system that is a file, after printing where Inkscape was
    found; when neither is a file it prints its message and exits with
    status 1. *)
Theorem inkscape_path_is_first_candidate (st : state) :
  let candidates :=
    if String.eqb os_name "nt"
    then ["C:\Program Files\Inkscape\inkscape.exe";
          "C:\Program Files (x86)\Inkscape\inkscape.exe"]
    else ["/Applications/Inkscape.app" +:+ "/Contents/Resources/bin/inkscape-bin";
          "/usr/bin/inkscape"] in
  _get_inkscape_path st
  = match List.find (λ path, bool_decide (path ∈ files st)) candidates with
    | Some path =>
        (Ok path, (print ("Inkscape installation found ... " +:+ path) st).2)
    | None =>
        (Exit 1,
         (print (if String.eqb os_name "nt"
                 then "Inkscape installation not found!"
                 else "No Inkscape installation found!") st).2)
    end.
Proof.
  unfold _get_inkscape_path, isfile, get, bind, ret.
  set (mac := "/Applications/Inkscape.app"
              +:+ "/Contents/Resources/bin/inkscape-bin").
  destruct (String.eqb os_name "nt"); cbn [List.find fst snd];
    repeat (match goal with
            | |- context [bool_decide (?p ∈ files st)] =>
                destruct (bool_decide (p ∈ files st))
            end; cbn [List.find fst snd]); reflexivity.
Qed.

(** X6. [_build_data_from_json] returns the parsed document as it is when
    the file is there and [json.load] returns. A missing file ends the
    process with status 1 from inside [_resolve_path] (the function's own
    message for a missing file is never printed). Of the exceptions of
    [open] and [json.load] only [JSONDecodeError] is caught: text that is
    not JSON ends the process with status 1 and the message about the JSON
    format. Any other exception, such as the [UnicodeDecodeError] of a file
    that is not text, reaches the caller: nothing is printed and the
    process is not ended by this function. *)
Theorem rules_file_outcomes (json_filename : string) (st : state) :
  _build_data_from_json json_filename st
  = if bool_decide (json_filename ∈ files st) then
      match json_load json_filename with
      | inl json_data => (Ok json_data, st)
      | inr JSONDecodeError =>
          (Exit 1,
           (print (json_filename +:+ " is not a valid JSON file format!") st).2)
      | inr e => (Raise e, st)
      end
    else
      (Exit 1, (print (json_filename +:+ " is not a valid file path!") st).2).
Proof.
  unfold _build_data_from_json, _resolve_path, isfile, get, bind. simpl.
  destruct (bool_decide (json_filename ∈ files st)); simpl; [|done].
  by destruct (json_load json_filename) as [json_data|[]].
Qed.

(** X7. [_build_svg_filenames] keeps the entries of the directory that
    end in [.svg], in the order of the listing, each cut before its first
    [.svg]; it prints their number and returns them. With no such entry
    it prints its message and exits with status 1, so a list it returns is
    never empty. *)
Theorem svg_filenames_of_listing (dirpath : string) (st : state) :
  let names :=
    List.map (split_head ".svg")
      (List.filter (λ file_name, endswith file_name ".svg") (listdir dirpath)) in
  _build_svg_filenames dirpath st
  = match names with
    | [] => (Exit 1, (print ("No SVG file found in " +:+ dirpath) st).2)
    | _ :: _ =>
        (Ok names,
         (print (pretty (length names) +:+ " SVG files found") st).2)
    end.
Proof.
  intros names. subst names. rewrite build_svg_filenames_unfold.
  by destruct (List.map _ _).
Qed.

Lemma substring_all (s : string) : substring 0 (String.length s) s = s.
Proof. induction s as [|c s IH]; simpl; [done | by rewrite IH]. Qed.

Lemma substring_suffix (a b : string) :
  substring (String.length a) (String.length b) (a +:+ b) = b.
Proof. induction a as [|c a IH]; simpl; [apply substring_all | exact IH]. Qed.

Lemma length_app_string (a b : string) :
  String.length (a +:+ b) = (String.length a + String.length b)%nat.
Proof. induction a as [|c a IH]; simpl; [done | by rewrite IH]. Qed.

Lemma prefix_svg_inv (s : string) :
  String.prefix ".svg" s = true → ∃ r, s = ".svg" +:+ r.
Proof.
  destruct s as [|c1 [|c2 [|c3 [|c4 r]]]]; cbn [String.prefix];
    repeat (match goal with
            | |- context [ascii_dec ?a ?b] => destruct (ascii_dec a b); subst
            end; cbn [String.prefix]);
    try (intros H; discriminate H).
  intros _. eexists. reflexivity.
Qed.

Lemma split_head_cons (mark : string) (c : ascii) (s : string) :
  split_head mark (String c s)
  = if String.prefix mark (String c s) then EmptyString
    else String c (split_head mark s).
Proof. reflexivity. Qed.

(** X8. A name made of a stem without [.svg] in it, followed by [.svg],
    passes the test of the listing and is cut back to the stem, so that
    [stem + ".svg"] names the listed file again. Whatever follows that
    first [.svg] is lost: [a.svg.svg] is listed under the stem [a]. *)
Theorem stem_of_svg_name (stem rest : string) :
  (∀ a b, stem ≠ a +:+ ".svg" +:+ b) →
  endswith (stem +:+ ".svg") ".svg" = true
  ∧ split_head ".svg" (stem +:+ ".svg" +:+ rest) = stem.
Proof.
  intros Hfree. split.
  { unfold endswith. rewrite length_app_string.
    replace (String.length stem + String.length ".svg" - String.length ".svg")%nat
      with (String.length stem) by lia.
    rewrite substring_suffix, String.eqb_refl, andb_true_r.
    apply Nat.leb_le. lia. }
  induction stem as [|c stem IH]; [by destruct rest|].
  change (String c stem +:+ ".svg" +:+ rest)
    with (String c (stem +:+ ".svg" +:+ rest)).
  rewrite split_head_cons.
  destruct (String.prefix ".svg" (String c (stem +:+ ".svg" +:+ rest))) eqn:Hp.
  - exfalso. apply prefix_svg_inv in Hp as [r Hr].
    destruct stem as [|c2 [|c3 [|c4 s4]]]; simpl in Hr; try discriminate Hr.
    injection Hr as -> -> -> -> _. by apply (Hfree "" s4).
  - f_equal. apply IH. intros a b Heq. apply (Hfree (String c a) b).
    simpl. by rewrite Heq.
Qed.

(** ** The options of the command line *)

Lemma split_nonempty (c : ascii) (s : string) : split c s ≠ [].
Proof.
  destruct s as [|a s]; simpl; [done|].
  destruct (Ascii.eqb a c); [done|]. by destruct (split c s).
Qed.

Lemma concat_cons_char (mark : string) (a : ascii) (tok : string)
    (toks : list string) :
  String.concat mark (String a tok :: toks)
  = String a (String.concat mark (tok :: toks)).
Proof. by destruct toks. Qed.

Lemma split_concat (c : ascii) (s : string) :
  String.concat (String c EmptyString) (split c s) = s.
Proof.
  induction s as [|a s IH]; simpl; [done|].
  destruct (Ascii.eqb_spec a c) as [->|Hne].
  - pose proof (split_nonempty c s) as Hne.
    destruct (split c s) as [|tok toks]; [done|].
    cbn [String.concat]. simpl. by rewrite <- IH.
  - pose proof (split_nonempty c s) as Hnil.
    destruct (split c s) as [|tok toks]; [done|].
    by rewrite concat_cons_char, IH.
Qed.

Lemma split_length (c : ascii) (s : string) :
  length (split c s) = S (count_occ ascii_dec (list_ascii_of_string s) c).
Proof.
  induction s as [|a s IH]; simpl; [done|].
  destruct (Ascii.eqb_spec a c) as [->|Hne].
  - simpl. rewrite IH. by destruct (ascii_dec c c).
  - pose proof (split_nonempty c s) as Hnil.
    destruct (split c s) as [|tok toks]; [done|].
    simpl in *. rewrite IH. by destruct (ascii_dec a c).
Qed.

(** X9. A [--size] value is accepted exactly when it has one comma. The
    two parts around the comma then reach [export_svg] as they were typed,
    as a list of two strings: they are not checked to be numbers. With any
    other number of commas the script prints its message and ends through
    [sys.exit()]. *)
Theorem size_option_needs_one_comma (args : arguments) (a : string)
    (st : state) :
  given (args_drawing_only args) = None →
  given (args_size args) = Some a →
  (count_occ ascii_dec (list_ascii_of_string a) ","%char = 1%nat →
   ∃ w h,
     a = w +:+ "," +:+ h
     ∧ main args st
       = export_svg (args_srcdir args) (args_outdir args) (args_rules args)
           (args_format args) (Some (VList [AStr w; AStr h])) (Some true)
           (default "default" (given (args_inkscape args))) st)
  ∧ (count_occ ascii_dec (list_ascii_of_string a) ","%char ≠ 1%nat →
     main args st
     = (Exit 0,
        (print ("Wrong argument supplied for --size parameter! "
                +:+ newline +:+ "Use --help or -h to get help") st).2)).
Proof.
  intros Hd Hs. split.
  - intros Hone.
    pose proof (split_length "," a) as Hlen. rewrite Hone in Hlen.
    pose proof (split_concat "," a) as Hcat.
    destruct (split "," a) as [|w [|h [|x rest]]] eqn:Hsplit; try discriminate.
    exists w, h. split; [by rewrite <- Hcat|].
    unfold main. rewrite Hd, Hs. unfold bind, ret. simpl. rewrite Hsplit. simpl.
    by destruct (given (args_inkscape args)).
  - intros Hcount. apply (main_malformed_size args a); [done..|].
    rewrite split_length. lia.
Qed.

(** X10. [--drawing_only] is read without regard to case: a value whose
    lowercase is [y] or [yes] passes [drawing_only=True] to [export_svg],
    one whose lowercase is [n] or [no] passes [drawing_only=False]. *)
Theorem drawing_only_option_tokens (args : arguments) (a : string)
    (st : state) :
  given (args_drawing_only args) = Some a →
  given (args_size args) = None →
  (lower a ∈ ["y"; "yes"] →
   main args st
   = export_svg (args_srcdir args) (args_outdir args) (args_rules args)
       (args_format args) None (Some true)
       (default "default" (given (args_inkscape args))) st)
  ∧ (lower a ∈ ["n"; "no"] →
     main args st
     = export_svg (args_srcdir args) (args_outdir args) (args_rules args)
         (args_format args) None (Some false)
         (default "default" (given (args_inkscape args))) st).
Proof.
  intros Hd Hs. unfold main. rewrite Hd, Hs. split; intros Hin;
    repeat (apply elem_of_cons in Hin as [Hin|Hin]);
    try (by apply elem_of_nil in Hin);
    rewrite Hin; unfold bind, ret; simpl;
    by destruct (given (args_inkscape args)).
Qed.

(** ** Conversions that fail *)

(** X11. On the routes that use the size ([png] and the relay formats) a
    size that is true but cannot give two items raises before the renderer
    is run, and the state is as before the call: [IndexError] for a list of
    one item, [TypeError] for a non-zero number or [True]. The routes of
    [pdf], [ps] and [eps] never look at the size, so any size at all gives
    what no size gives. *)
Theorem unusable_size_raises_before_running
    (inkscape_path src_svg_path out_img_path f : string)
    (drawing_only : value) (st : state) :
  (f = "png" ∨ classify f = Relay →
     (∀ w, _convert_via_inkscape inkscape_path src_svg_path out_img_path f
             (VList [w]) drawing_only st
           = (Raise IndexError, st))
     ∧ (∀ n, n ≠ 0%Z →
             _convert_via_inkscape inkscape_path src_svg_path out_img_path f
               (VAtom (AInt n)) drawing_only st
             = (Raise TypeError, st))
     ∧ _convert_via_inkscape inkscape_path src_svg_path out_img_path f
         (VAtom (ABool true)) drawing_only st
       = (Raise TypeError, st))
  ∧ (f ∈ ["pdf"; "ps"; "eps"] →
     ∀ size,
       _convert_via_inkscape inkscape_path src_svg_path out_img_path f
         size drawing_only st
       = _convert_via_inkscape inkscape_path src_svg_path out_img_path f
           (VAtom ANone) drawing_only st).
Proof.
  split.
  - intros Hf.
    assert (Hbranch : ∀ size r,
              truthy size = true →
              (∀ cmd, with_size cmd size st = (r, st)) →
              (∀ a, r ≠ Ok a) →
              _convert_via_inkscape inkscape_path src_svg_path out_img_path f
                size drawing_only st
              = (match r with
                 | Ok _ => Ok tt
                 | Raise e => Raise e
                 | Exit z => Exit z
                 end, st)).
    { intros size r Htrue Hwith Hfail. unfold _convert_via_inkscape.
      destruct Hf as [->|Hf].
      - simpl. rewrite Htrue. unfold bind. rewrite Hwith.
        destruct r as [a|e|z]; [by destruct (Hfail a)|done..].
      - unfold classify in Hf.
        destruct (_is_inkscape_format f); [done|].
        destruct (_is_pillow_format f); [|done].
        rewrite Htrue. unfold bind at 1. rewrite Hwith.
        destruct r as [a|e|z]; [by destruct (Hfail a)|done..]. }
    repeat split.
    + intros w. by apply (Hbranch (VList [w]) (Raise IndexError)).
    + intros n Hn. apply (Hbranch (VAtom (AInt n)) (Raise TypeError)); try done.
      simpl. by apply negb_true_iff, Z.eqb_neq.
    + by apply (Hbranch (VAtom (ABool true)) (Raise TypeError)).
  - intros Hf size.
    repeat (apply elem_of_cons in Hf as [->|Hf]);
      try (by apply elem_of_nil in Hf); reflexivity.
Qed.

(** X12. A format that is not a string (a number, [null], a list) cannot
    be appended to the output name: the file's iteration raises
    [TypeError] right after the resolution, and nothing is run for it. *)
Theorem non_string_format_raises_type_error
    (inkscape_path src_dir out_dir : string) (global_param : ref)
    (svg_file : string) (st : state) (final_param : block) (v : value) :
  (resolve_file global_param svg_file st).1 = Ok final_param →
  final_param !! "format" = Some v →
  (∀ s, v ≠ VAtom (AStr s)) →
  export_file inkscape_path src_dir out_dir global_param svg_file st
  = (Raise TypeError, (resolve_file global_param svg_file st).2).
Proof.
  intros Hres Hfmt Hv.
  destruct (resolve_file_ok global_param svg_file st) as [fp Hok].
  rewrite Hok in Hres. simpl in Hres. injection Hres as ->.
  unfold export_file. erewrite bind_ok by exact Hok.
  unfold getitem. rewrite Hfmt. unfold bind, ret, concat_operand. simpl.
  destruct v as [[| | |s]|items]; try done. by destruct (Hv s).
Qed.

(** X13. The loop stops at the first file whose iteration does not
    return: with the files before it converted, the batch ends as that
    iteration ended, in the state it left, and the files after it are not
    looked at. *)
Theorem first_failure_ends_the_batch
    (inkscape_path src_dir out_dir : string) (global_param : ref)
    (before : list string) (svg_file : string) (after : list string)
    (st st1 st2 : state) (r : result unit) :
  for_each before (export_file inkscape_path src_dir out_dir global_param) st
    = (Ok tt, st1) →
  export_file inkscape_path src_dir out_dir global_param svg_file st1
    = (r, st2) →
  r ≠ Ok tt →
  for_each (before ++ svg_file :: after)
    (export_file inkscape_path src_dir out_dir global_param) st
  = (r, st2).
Proof.
  intros Hbefore Hfile Hfail.
  rewrite for_each_app. erewrite bind_ok by exact Hbefore. simpl.
  unfold bind at 1. rewrite Hfile.
  destruct r as [[]|e|z]; [by destruct Hfail|done..].
Qed.

(** X14. How a relay conversion ends once the renderer has run, [st1]
    being the state it leaves. If the intermediate PNG is not there, the
    [os.remove] of the [finally] raises [FileNotFoundError], and that is
    what the caller gets, whether Pillow is installed or not. If it is
    there: without Pillow the message is printed and the process exits
    with status 1; with Pillow and a save that returns, the call returns;
    with a save that raises anything but [ImportError], that exception
    propagates. In these three cases the PNG has been removed. A renderer
    that cannot be started gives none of these: the exception of
    [subprocess.run] is what the caller gets, in the state [st1]. *)
Theorem relay_outcomes
    (inkscape_path src_svg_path out_img_path f : string) (sized : bool)
    (w h : atom) (drawing_only : value) (st : state) :
  let size := if sized then VList [w; h] else VAtom ANone in
  let cmd :=
    [inkscape_path; "-f"; src_svg_path;
     if truthy drawing_only then "--export-area-drawing"
     else "--export-area-page"]
    ++ ["--export-png=" +:+ tempf_path]
    ++ (if sized then ["-w"; py_str w; "-h"; py_str h] else []) in
  let st1 := (_run_command cmd st).2 in
  let outcome :=
    _convert_via_inkscape inkscape_path src_svg_path out_img_path f
      size drawing_only st in
  classify f = Relay →
  (∀ e, spawn_failure cmd (files st) = Some e → outcome = (Raise e, st1))
  ∧ (spawn_failure cmd (files st) = None →
     (tempf_path ∉ files st1 → outcome.1 = Raise FileNotFoundError)
     ∧ (tempf_path ∈ files st1 → pillow_installed = false →
        outcome
        = (Exit 1,
           set_files (files st1 ∖ {[tempf_path]})
             (print "Python3 Pillow library not found!" st1).2))
     ∧ (tempf_path ∈ files st1 → pillow_installed = true →
        ∀ fs, pillow_save tempf_path out_img_path (files st1) = (None, fs) →
              tempf_path ∈ fs →
              outcome = (Ok tt, set_files (fs ∖ {[tempf_path]}) st1))
     ∧ (tempf_path ∈ files st1 → pillow_installed = true →
        ∀ e fs, pillow_save tempf_path out_img_path (files st1) = (Some e, fs) →
                e ≠ ImportError →
                tempf_path ∈ fs →
                outcome = (Raise e, set_files (fs ∖ {[tempf_path]}) st1))).
Proof.
  intros size cmd st1 outcome Hf. unfold classify in Hf.
  destruct (_is_inkscape_format f) eqn:Hi; [done|].
  destruct (_is_pillow_format f) eqn:Hp; [|done].
  assert (Hrun : outcome
                 = bind (_run_command cmd)
                     (λ _,
                        try_except_finally
                          ((if pillow_installed then ret tt else raise ImportError) ;;
                           open_rb tempf_path ;;
                           (λ st, let '(e, fs) :=
                                    pillow_save tempf_path out_img_path (files st) in
                                  (match e with Some e => Raise e | None => Ok tt end,
                                   set_files fs st)))
                          (λ e, match e with ImportError => true | _ => false end)
                          (_report_error ImportError "Python3 Pillow library not found!")
                          (os_remove tempf_path)) st).
  { subst outcome st1 cmd size. unfold _convert_via_inkscape. rewrite Hi, Hp.
    by destruct sized, (truthy drawing_only). }
  split.
  { intros e He. rewrite Hrun. subst st1. unfold bind.
    by rewrite (run_command_failed cmd st e He). }
  intros Hstart.
  assert (Hout : outcome
                 = try_except_finally
                     ((if pillow_installed then ret tt else raise ImportError) ;;
                      open_rb tempf_path ;;
                      (λ st, let '(e, fs) :=
                               pillow_save tempf_path out_img_path (files st) in
                             (match e with Some e => Raise e | None => Ok tt end,
                              set_files fs st)))
                     (λ e, match e with ImportError => true | _ => false end)
                     (_report_error ImportError "Python3 Pillow library not found!")
                     (os_remove tempf_path) st1).
  { rewrite Hrun. subst st1. unfold bind.
    by rewrite (run_command_started cmd st Hstart). }
  rewrite Hout. clear Hout Hrun Hstart. generalize st1. clear. intros st1.
  unfold try_except_finally, open_rb, isfile, _report_error, os_remove.
  unfold bind, ret, raise, get, print, sys_exit.
  repeat split.
  - intros Hgone. cbn -[bool_decide].
    destruct pillow_installed; cbn -[bool_decide];
      rewrite !(bool_decide_eq_false_2 _ Hgone); reflexivity.
  - intros Hthere ->. cbn -[bool_decide].
    by rewrite (bool_decide_eq_true_2 _ Hthere).
  - intros Hthere -> fs Hsave Hfs. cbn -[bool_decide].
    rewrite (bool_decide_eq_true_2 _ Hthere). cbn -[bool_decide].
    rewrite Hsave. cbn -[bool_decide].
    by rewrite (bool_decide_eq_true_2 _ Hfs).
  - intros Hthere -> e fs Hsave He Hfs. cbn -[bool_decide].
    rewrite (bool_decide_eq_true_2 _ Hthere). cbn -[bool_decide].
    rewrite Hsave. cbn -[bool_decide].
    destruct e; try done; cbn -[bool_decide];
      by rewrite (bool_decide_eq_true_2 _ Hfs).
Qed.

(** ** The exit status of [export_svg] *)

Lemma exits_bind {A B} (m : M A) (k : A → M B) :
  exits_with_one m → (∀ a, exits_with_one (k a)) → exits_with_one (bind m k).
Proof.
  intros Hm Hk st z. unfold bind. specialize (Hm st z).
  destruct (m st) as [[a|e|z'] st']; simpl in *; [apply Hk|done|].
  intros [= ->]. by apply Hm.
Qed.

Lemma exits_no_exit {A} (m : M A) :
  (∀ st z, (m st).1 ≠ Exit z) → exits_with_one m.
Proof. intros H st z Hz. by destruct (H st z). Qed.

Lemma exits_report_error {A} (e : exn) (desc : string) :
  exits_with_one (_report_error (A := A) e desc).
Proof. intros st z. unfold _report_error, bind, print, sys_exit. simpl. by intros [= <-]. Qed.

Lemma exits_for_each {A} (xs : list A) (body : A → M unit) :
  (∀ x, exits_with_one (body x)) → exits_with_one (for_each xs body).
Proof.
  intros Hbody. induction xs as [|x rest IH]; simpl; [by apply exits_no_exit|].
  apply exits_bind; [apply Hbody | intros _; apply IH].
Qed.

Lemma exits_try_except_finally {A} (body : M A) (handled : exn → bool)
    (handler : M A) (final : M unit) :
  exits_with_one body → exits_with_one handler → exits_with_one final →
  exits_with_one (try_except_finally body handled handler final).
Proof.
  intros Hb Hh Hf st z. unfold try_except_finally.
  specialize (Hb st z). destruct (body st) as [r1 st1]; simpl in Hb.
  assert (Hr2 : ∀ r2 st2,
            match r1 with
            | Raise e => if handled e then handler st1 else (r1, st1)
            | _ => (r1, st1)
            end = (r2, st2) → r2 = Exit z → z = 1%Z).
  { intros r2 st2 Heq ->. destruct r1 as [a|e|z1]; try (by inversion Heq; subst; auto).
    destruct (handled e); [|by inversion Heq].
    apply (Hh st1 z). by rewrite Heq. }
  destruct (match r1 with
            | Raise e => if handled e then handler st1 else (r1, st1)
            | _ => (r1, st1)
            end) as [r2 st2].
  specialize (Hr2 r2 st2 eq_refl). specialize (Hf st2 z).
  destruct (final st2) as [[| |z3] st3]; simpl in *; [exact Hr2|done|].
  intros [= ->]. by apply Hf.
Qed.

Lemma exits_resolve_path (filepath : string) : exits_with_one (_resolve_path filepath).
Proof.
  apply exits_bind; [by apply exits_no_exit|]. intros [].
  - by apply exits_no_exit.
  - apply exits_bind; [apply exits_report_error | intros _; by apply exits_no_exit].
Qed.

Lemma exits_with_size (cmd : list string) (size : value) :
  exits_with_one (with_size cmd size).
Proof.
  assert (Hsub : ∀ i, exits_with_one (subscript size i)).
  { intros i. apply exits_no_exit. intros st z. unfold subscript.
    destruct size as [[| | |s]|items]; try done.
    - by destruct (String.get i s).
    - by destruct (items !! i). }
  apply exits_bind; [apply Hsub|]. intros w.
  apply exits_bind; [apply Hsub|]. intros h. by apply exits_no_exit.
Qed.

Lemma exits_run_command (cmd : list string) :
  exits_with_one (_run_command cmd).
Proof.
  apply exits_no_exit. intros st z. unfold _run_command.
  by destruct (spawn_failure cmd (files st)).
Qed.

Lemma exits_convert (inkscape_path src_svg_path out_img_path f : string)
    (size drawing_only : value) :
  exits_with_one
    (_convert_via_inkscape inkscape_path src_svg_path out_img_path f
       size drawing_only).
Proof.
  unfold _convert_via_inkscape.
  destruct (_is_inkscape_format f).
  { apply exits_bind; [|intros cmd; apply exits_run_command].
    destruct (String.eqb f "png").
    { destruct (truthy size); [apply exits_with_size | by apply exits_no_exit]. }
    repeat (match goal with |- context [if ?b then _ else _] => destruct b end;
            try (by apply exits_no_exit)). }
  destruct (_is_pillow_format f); [|apply exits_report_error].
  apply exits_bind.
  { destruct (truthy size); [apply exits_with_size | by apply exits_no_exit]. }
  intros cmd. apply exits_bind; [apply exits_run_command|]. intros _.
  apply exits_try_except_finally; [|apply exits_report_error|].
  - apply exits_bind; [apply exits_no_exit; by destruct pillow_installed|].
    intros _. apply exits_bind.
    { apply exits_bind; [by apply exits_no_exit|].
      intros []; by apply exits_no_exit. }
    intros _. apply exits_no_exit. intros st z.
    by destruct (pillow_save tempf_path out_img_path (files st)) as [[e|] fs].
  - apply exits_no_exit. intros st z. unfold os_remove.
    by destruct (bool_decide _).
Qed.

Lemma exits_export_file (inkscape_path src_dir out_dir : string)
    (global_param : ref) (svg_file : string) :
  exits_with_one
    (export_file inkscape_path src_dir out_dir global_param svg_file).
Proof.
  unfold export_file.
  assert (Hget : ∀ d k, exits_with_one (getitem d k)).
  { intros d k. apply exits_no_exit. intros st z. unfold getitem.
    by destruct (d !! k). }
  apply exits_bind.
  { apply exits_no_exit. intros st z.
    destruct (resolve_file_ok global_param svg_file st) as [fp Hok].
    by rewrite Hok. }
  intros final_param. apply exits_bind; [apply Hget|]. intros fmt.
  apply exits_bind.
  { apply exits_no_exit. intros st z. by destruct fmt as [[| | |s]|items]. }
  intros ext. apply exits_bind; [apply Hget|]. intros size.
  apply exits_bind; [apply Hget|]. intros drawing_only.
  apply exits_bind; [apply exits_convert|]. intros _. by apply exits_no_exit.
Qed.

Lemma exits_export_svg_setup (src_dir out_dir : string)
    (json_rules_file file_format : option string) (size : option value)
    (drawing_only : option bool) (inkscape_path : string) :
  exits_with_one
    (export_svg_setup src_dir out_dir json_rules_file file_format size
       drawing_only inkscape_path).
Proof.
  assert (Hdir : ∀ d, exits_with_one (_resolve_dir d)).
  { intros d. unfold _resolve_dir. destruct (isdir d); [by apply exits_no_exit|].
    apply exits_bind; [apply exits_report_error | intros _; by apply exits_no_exit]. }
  unfold export_svg_setup.
  apply exits_bind; [apply Hdir|]. intros src_ok.
  apply exits_bind; [destruct src_ok; [apply Hdir | by apply exits_no_exit]|].
  intros _. apply exits_bind.
  { destruct (given json_rules_file);
      [apply exits_resolve_path | by apply exits_no_exit]. }
  intros _. apply exits_bind.
  { destruct (String.eqb inkscape_path "default").
    - unfold _get_inkscape_path. apply exits_bind.
      + destruct (String.eqb os_name "nt");
          (apply exits_bind; [by apply exits_no_exit|]; intros [];
           [by apply exits_no_exit|];
           apply exits_bind; [by apply exits_no_exit|]; intros [];
           [by apply exits_no_exit|];
           apply exits_bind; [apply exits_report_error|]; intros _;
           by apply exits_no_exit).
      + intros path. apply exits_bind; by intros; apply exits_no_exit.
    - apply exits_bind; [apply exits_resolve_path|]. intros _.
      by apply exits_no_exit. }
  intros ink. apply exits_bind; [by apply exits_no_exit|]. intros _.
  apply exits_bind; [by apply exits_no_exit|]. intros _.
  apply exits_bind; [by apply exits_no_exit|]. intros _.
  apply exits_bind.
  { unfold _build_svg_filenames. apply exits_bind.
    - match goal with |- context [if ?b then _ else _] => destruct b end;
        [apply exits_report_error | by apply exits_no_exit].
    - intros _. apply exits_bind; by intros; apply exits_no_exit. }
  intros svg_files. apply exits_bind.
  { destruct json_rules_file as [f|]; [|by apply exits_no_exit].
    apply exits_bind; [|intros rd; by apply exits_no_exit].
    unfold _build_data_from_json.
    apply exits_bind; [apply exits_resolve_path|]. intros [].
    - destruct (json_load f) as [rd|[]];
        try (by apply exits_no_exit); apply exits_report_error.
    - apply exits_report_error. }
  intros _. apply exits_bind.
  { apply exits_no_exit. intros s z. unfold bind_curated.
    by destruct (rule_data s !! "_globalrule_"). }
  intros global_param. apply exits_bind; by intros; apply exits_no_exit.
Qed.

(** X15. Every way [export_svg] ends the process goes through
    [_report_error]: if it exits, the status is 1. It never exits with
    status 0. *)
Theorem export_svg_exits_with_status_one (src_dir out_dir : string)
    (json_rules_file file_format : option string) (size : option value)
    (drawing_only : option bool) (inkscape_path : string) (st : state)
    (z : Z) :
  (export_svg src_dir out_dir json_rules_file file_format size drawing_only
     inkscape_path st).1 = Exit z →
  z = 1%Z.
Proof.
  revert st z.
  change (exits_with_one
            (export_svg src_dir out_dir json_rules_file file_format size
               drawing_only inkscape_path)).
  unfold export_svg.
  apply exits_bind; [apply exits_export_svg_setup|].
  intros [[ink svg_files] global_param].
  apply exits_bind; [|intros _; by apply exits_no_exit].
  apply exits_for_each. intros svg_file. apply exits_export_file.
Qed.

(** ** A batch with no rules and no options *)

Lemma plain_record :
  resolve [∅; ∅; ∅; def_param_literal] !! "format" = Some (VAtom (AStr "png"))
  ∧ resolve [∅; ∅; ∅; def_param_literal] !! "size" = Some (VAtom ANone)
  ∧ resolve [∅; ∅; ∅; def_param_literal] !! "drawing_only"
    = Some (VAtom (ABool true)).
Proof. by vm_compute. Qed.

Lemma bind_exit {A B} (m : M A) (k : A → M B) (st st' : state) (z : Z) :
  m st = (Exit z, st') → bind m k st = (Exit z, st').
Proof. intros H. unfold bind. by rewrite H. Qed.

Lemma bind_raise {A B} (m : M A) (k : A → M B) (st st' : state) (e : exn) :
  m st = (Raise e, st') → bind m k st = (Raise e, st').
Proof. intros H. unfold bind. by rewrite H. Qed.

Lemma export_file_plain (inkscape_path src_dir out_dir svg_file : string)
    (fs : gset string) (out : list string) (cmds : list (list string)) :
  let cmd := [inkscape_path; "-f"; src_dir +:+ sep +:+ svg_file +:+ ".svg";
              "--export-area-drawing";
              "--export-png=" +:+ out_dir +:+ sep +:+ svg_file +:+ ".png"] in
  export_file inkscape_path src_dir out_dir Fresh svg_file
    (State ∅ ∅ def_param_literal fs out cmds)
  = match spawn_failure cmd fs with
    | None =>
        (Ok tt,
         State ∅ ∅ def_param_literal (run cmd fs)
           (out ++ ["Saved " +:+ svg_file +:+ ".png"]) (cmds ++ [cmd]))
    | Some e =>
        (Raise e, State ∅ ∅ def_param_literal fs out (cmds ++ [cmd]))
    end.
Proof.
  intros cmd. unfold export_file.
  erewrite bind_ok
    by (rewrite resolve_file_unfold; cbn [rule_data]; rewrite lookup_empty;
        reflexivity).
  cbn [deref supplied_param def_param].
  destruct plain_record as (Hfmt & Hsize & Hdraw).
  unfold getitem. rewrite Hfmt, Hsize, Hdraw.
  do 4 (erewrite bind_ok by reflexivity).
  unfold bind.
  change (_convert_via_inkscape inkscape_path
            (src_dir +:+ sep +:+ svg_file +:+ ".svg")
            (out_dir +:+ sep +:+ svg_file +:+ "." +:+ "png") "png"
            (VAtom ANone) (VAtom (ABool true)))
    with (_run_command cmd).
  unfold _run_command. cbn [files].
  by destruct (spawn_failure cmd fs).
Qed.

Lemma plain_loop (inkscape_path src_dir out_dir : string)
    (svg_files : list string) (fs : gset string) (out : list string)
    (cmds : list (list string)) :
  (∀ cmd fs, head cmd = Some inkscape_path → spawn_failure cmd fs = None) →
  let cmd_of svg_file :=
    [inkscape_path; "-f"; src_dir +:+ sep +:+ svg_file +:+ ".svg";
     "--export-area-drawing";
     "--export-png=" +:+ out_dir +:+ sep +:+ svg_file +:+ ".png"] in
  for_each svg_files (export_file inkscape_path src_dir out_dir Fresh)
    (State ∅ ∅ def_param_literal fs out cmds)
  = (Ok tt,
     State ∅ ∅ def_param_literal
       (foldl (λ fs svg_file, run (cmd_of svg_file) fs) fs svg_files)
       (out ++ ((λ svg_file, "Saved " +:+ svg_file +:+ ".png") <$> svg_files))
       (cmds ++ (cmd_of <$> svg_files))).
Proof.
  intros Hstarts cmd_of. revert fs out cmds.
  induction svg_files as [|svg_file rest IH]; intros fs out cmds.
  - simpl. by rewrite !app_nil_r.
  - cbn [for_each]. erewrite bind_ok.
    2:{ rewrite export_file_plain. by rewrite Hstarts. }
    rewrite IH. cbn [foldl fmap list_fmap]. by rewrite <- !app_assoc.
Qed.

(** The part before the loop, for a batch without rules or options and
    with an explicit renderer: only the count is printed. *)
Lemma plain_setup (src_dir out_dir inkscape_path : string) (st : state)
    (stem : string) (stems : list string) :
  isdir src_dir = true →
  isdir out_dir = true →
  inkscape_path ≠ "default" →
  inkscape_path ∈ files st →
  List.map (split_head ".svg")
    (List.filter (λ file_name, endswith file_name ".svg") (listdir src_dir))
  = stem :: stems →
  export_svg_setup src_dir out_dir None None None None inkscape_path st
  = (Ok (inkscape_path, stem :: stems, Fresh),
     State ∅ ∅ def_param_literal (files st)
       (stdout st ++ [pretty (S (length stems)) +:+ " SVG files found"])
       (commands st)).
Proof.
  intros Hsrc Hout Hink Hfile Hlist.
  unfold export_svg_setup, _resolve_dir. rewrite Hsrc.
  erewrite bind_ok by reflexivity. rewrite Hout.
  erewrite bind_ok by reflexivity. cbn [given].
  erewrite bind_ok by reflexivity.
  apply String.eqb_neq in Hink. rewrite Hink.
  erewrite bind_ok.
  2:{ erewrite bind_ok; [reflexivity|].
      unfold _resolve_path, isfile, get. erewrite bind_ok by reflexivity.
      by rewrite (bool_decide_eq_true_2 _ Hfile). }
  erewrite bind_ok by reflexivity.
  erewrite bind_ok by reflexivity.
  erewrite bind_ok by reflexivity.
  erewrite bind_ok by (rewrite build_svg_filenames_unfold, Hlist; reflexivity).
  erewrite bind_ok by reflexivity.
  erewrite bind_ok by (unfold bind_curated; cbn; rewrite lookup_empty; reflexivity).
  reflexivity.
Qed.

(** X16. Called with the two directories and an explicit renderer that is
    a file, no rules and no options, [export_svg] prints the count of the
    drawings of the listing and starts on them. If the renderer can be
    started, it converts every drawing: it runs one command per stem, in
    the order of the listing, each exporting the drawing area to
    [stem.png] in the output directory without size flags; it prints one
    [Saved] line per stem and [Done], and returns. Being a file is not
    enough for that: if [subprocess.run] cannot start the renderer for the
    first drawing (a file that is not executable, say), its exception ends
    [export_svg] right after the count, with nothing saved. *)
Theorem plain_batch_converts_every_drawing
    (src_dir out_dir inkscape_path : string) (st : state) :
  isdir src_dir = true →
  isdir out_dir = true →
  inkscape_path ≠ "default" →
  inkscape_path ∈ files st →
  let svg_files :=
    List.map (split_head ".svg")
      (List.filter (λ file_name, endswith file_name ".svg") (listdir src_dir)) in
  let cmd_of svg_file :=
    [inkscape_path; "-f"; src_dir +:+ sep +:+ svg_file +:+ ".svg";
     "--export-area-drawing";
     "--export-png=" +:+ out_dir +:+ sep +:+ svg_file +:+ ".png"] in
  svg_files ≠ [] →
  ((∀ cmd fs, head cmd = Some inkscape_path → spawn_failure cmd fs = None) →
   ∃ st',
     export_svg src_dir out_dir None None None None inkscape_path st
     = (Ok tt, st')
     ∧ commands st' = commands st ++ (cmd_of <$> svg_files)
     ∧ stdout st'
       = stdout st ++ [pretty (length svg_files) +:+ " SVG files found"]
         ++ ((λ svg_file, "Saved " +:+ svg_file +:+ ".png") <$> svg_files)
         ++ ["Done"]
     ∧ files st' = foldl (λ fs svg_file, run (cmd_of svg_file) fs) (files st)
                     svg_files)
  ∧ (∀ stem e,
       head svg_files = Some stem →
       spawn_failure (cmd_of stem) (files st) = Some e →
       ∃ st',
         export_svg src_dir out_dir None None None None inkscape_path st
         = (Raise e, st')
         ∧ commands st' = commands st ++ [cmd_of stem]
         ∧ stdout st'
           = stdout st ++ [pretty (length svg_files) +:+ " SVG files found"]
         ∧ files st' = files st).
Proof.
  intros Hsrc Hout Hink Hfile svg_files cmd_of Hsome.
  destruct svg_files as [|stem stems] eqn:Hlist; [done|].
  pose proof (plain_setup src_dir out_dir inkscape_path st stem stems
                Hsrc Hout Hink Hfile Hlist) as Hsetup.
  split.
  - intros Hstarts. unfold export_svg.
    erewrite bind_ok by exact Hsetup. cbv beta iota.
    erewrite bind_ok by (by apply plain_loop).
    eexists. split; [reflexivity|]. cbn [commands stdout files print snd].
    repeat split. by rewrite <- !app_assoc.
  - intros stem' e [= <-] Hfails. unfold export_svg.
    erewrite bind_ok by exact Hsetup. cbv beta iota.
    cbn [for_each]. erewrite bind_raise.
    2:{ apply bind_raise. rewrite export_file_plain.
        cbn [files] in Hfails. fold (cmd_of stem). by rewrite Hfails. }
    eexists. split; [reflexivity|]. done.
Qed.

(** X17. The checks [export_svg] makes before its loop, in their order. A
    source directory that is not one, then an output directory that is not
    one, then a rules file that is not a file, each end the process with
    status 1 after their own message and nothing else; so does, with both
    directories and the renderer in place and no rules file, a listing
    without any [.svg] entry. No command has been run in any of these
    cases. *)
Theorem fatal_preconditions_run_nothing
    (src_dir out_dir : string) (json_rules_file file_format : option string)
    (size : option value) (drawing_only : option bool) (inkscape_path : string)
    (st : state) :
  (isdir src_dir = false →
   export_svg src_dir out_dir json_rules_file file_format size drawing_only
     inkscape_path st
   = (Exit 1, (print (src_dir +:+ " is not a valid directory!") st).2))
  ∧ (isdir src_dir = true → isdir out_dir = false →
     export_svg src_dir out_dir json_rules_file file_format size drawing_only
       inkscape_path st
     = (Exit 1, (print (out_dir +:+ " is not a valid directory!") st).2))
  ∧ (isdir src_dir = true → isdir out_dir = true →
     ∀ f, given json_rules_file = Some f → f ∉ files st →
     export_svg src_dir out_dir json_rules_file file_format size drawing_only
       inkscape_path st
     = (Exit 1, (print (f +:+ " is not a valid file path!") st).2))
  ∧ (isdir src_dir = true → isdir out_dir = true →
     json_rules_file = None →
     inkscape_path ≠ "default" → inkscape_path ∈ files st →
     List.filter (λ file_name, endswith file_name ".svg") (listdir src_dir) = [] →
     ∃ st',
       export_svg src_dir out_dir json_rules_file file_format size drawing_only
         inkscape_path st
       = (Exit 1, st')
       ∧ stdout st' = stdout st ++ ["No SVG file found in " +:+ src_dir]
       ∧ commands st' = commands st
       ∧ files st' = files st).
Proof.
  unfold export_svg. repeat split.
  - intros Hsrc. apply bind_exit.
    unfold export_svg_setup, _resolve_dir. by rewrite Hsrc.
  - intros Hsrc Hout. apply bind_exit.
    unfold export_svg_setup, _resolve_dir. by rewrite Hsrc, Hout.
  - intros Hsrc Hout f Hgiven Hf. apply bind_exit.
    unfold export_svg_setup, _resolve_dir. rewrite Hsrc, Hout, Hgiven.
    erewrite bind_ok by reflexivity. erewrite bind_ok by reflexivity.
    unfold _resolve_path, isfile, get, bind, ret. cbn -[bool_decide].
    by rewrite (bool_decide_eq_false_2 _ Hf).
  - intros Hsrc Hout -> Hink Hfile Hnone.
    eexists. split.
    { apply bind_exit.
      unfold export_svg_setup, _resolve_dir. rewrite Hsrc, Hout.
      erewrite bind_ok by reflexivity. erewrite bind_ok by reflexivity.
      cbn [given]. erewrite bind_ok by reflexivity.
      apply String.eqb_neq in Hink. rewrite Hink.
      erewrite bind_ok.
      2:{ erewrite bind_ok; [reflexivity|].
          unfold _resolve_path, isfile, get. erewrite bind_ok by reflexivity.
          by rewrite (bool_decide_eq_true_2 _ Hfile). }
      erewrite bind_ok by reflexivity.
      erewrite bind_ok by reflexivity.
      erewrite bind_ok by reflexivity.
      apply bind_exit. rewrite build_svg_filenames_unfold, Hnone. reflexivity. }
    done.
Qed.

(** ** The shape of every command *)

Lemma with_size_result (cmd : list string) (size : value) (st : state) :
  (∃ w h, with_size cmd size st = (Ok (cmd ++ ["-w"; w; "-h"; h]), st))
  ∨ (∃ e, with_size cmd size st = (Raise e, st)).
Proof.
  unfold with_size, bind, ret, subscript.
  destruct size as [[| |n|s]|items]; simpl; try (right; by eexists).
  - destruct (String.get 0 s); [|right; by eexists].
    destruct (String.get 1 s); [left; by eexists _, _ | right; by eexists].
  - destruct (items !! 0%nat); simpl; [|right; by eexists].
    destruct (items !! 1%nat); simpl; [left; by eexists _, _ | right; by eexists].
Qed.

(** X18. One conversion hands the renderer at most one command, and a
    command always starts with the executable, [-f], the input file and one
    of the two crop flags, chosen by the truth value of [drawing_only];
    whatever the format and the size, nothing else is ever run. *)
Theorem at_most_one_command_with_crop_flag
    (inkscape_path src_svg_path out_img_path f : string)
    (size drawing_only : value) (st : state) :
  let base := [inkscape_path; "-f"; src_svg_path;
               if truthy drawing_only then "--export-area-drawing"
               else "--export-area-page"] in
  let st' := (_convert_via_inkscape inkscape_path src_svg_path out_img_path f
                size drawing_only st).2 in
  commands st' = commands st
  ∨ ∃ flags, commands st' = commands st ++ [base ++ flags].
Proof.
  intros base st'. subst st' base. unfold _convert_via_inkscape.
  assert (Hcrop : (if truthy drawing_only
                   then [inkscape_path; "-f"; src_svg_path] ++ ["--export-area-drawing"]
                   else [inkscape_path; "-f"; src_svg_path] ++ ["--export-area-page"])
                  = [inkscape_path; "-f"; src_svg_path;
                     if truthy drawing_only then "--export-area-drawing"
                     else "--export-area-page"])
    by (by destruct (truthy drawing_only)).
  rewrite Hcrop. clear Hcrop.
  set (base := [inkscape_path; "-f"; src_svg_path;
                if truthy drawing_only then "--export-area-drawing"
                else "--export-area-page"]).
  assert (Hsized : ∀ cmd (k : list string → M unit),
            (∀ c s, commands (k c s).2 = commands s ++ [c]) →
            (∃ flags, cmd = base ++ flags) →
            let s' := (bind (if truthy size then with_size cmd size else ret cmd)
                            k st).2 in
            commands s' = commands st
            ∨ ∃ flags, commands s' = commands st ++ [base ++ flags]).
  { intros cmd k Hk [flags ->]. cbv zeta.
    destruct (truthy size).
    - destruct (with_size_result (base ++ flags) size st)
        as [(w & h & Hw)|(e & He)].
      + right. exists (flags ++ ["-w"; w; "-h"; h]).
        erewrite bind_ok by exact Hw. by rewrite Hk, app_assoc.
      + left. unfold bind. by rewrite He.
    - right. exists flags. erewrite bind_ok by reflexivity. by rewrite Hk. }
  destruct (_is_inkscape_format f).
  - destruct (String.eqb f "png").
    { apply Hsized; [apply run_command_commands | by eexists]. }
    right.
    repeat (match goal with |- context [if ?b then _ else _] => destruct b end);
      (erewrite bind_ok by reflexivity); rewrite run_command_commands;
      first [by eexists | exists []; by rewrite app_nil_r].
  - destruct (_is_pillow_format f); [|by left].
    apply Hsized; [|by eexists].
    intros c s. apply bind_run_command_commands. intros _.
    apply quiet_transcode.
Qed.

End Exporter.

(** * The properties at sample inputs *)

Example resolve_gauge_example :
  ∃ final_param st',
    resolve_file (InRules "_globalrule_") "gauge" (at_loop rules_global_size)
      = (Ok final_param, st')
    ∧ final_param !! "format" = Some (VAtom (AStr "gif"))
    ∧ final_param !! "size" = Some (VList [AInt 300; AInt 300])
    ∧ final_param !! "drawing_only" = Some (VAtom (ABool true)).
Proof. eexists _, _. split; [reflexivity|]. by vm_compute. Qed.

(** C1 fails as stated: in the batch over [gauge] and [ink] with the
    rules [rules_gauge_default], the highest layer of [gauge] that has a
    size is its own rule block, where the size is the string ["default"];
    the record of [gauge] holds [None], which is not that value, and
    [gauge] is exported without size flags while [ink] gets the global
    300 by 300. *)
Lemma default_size_is_not_the_layer_value :
  export_svg_setup "posix" sample_isdir sample_listdir_gauge
    sample_json_load_gauge
    "src" "out" (Some "rules.json") None None None "default" sample_start
  = (Ok ("/usr/bin/inkscape", ["gauge"; "ink"], InRules "_globalrule_"),
     sample_gauge_at_loop)
  ∧ rules_gauge_default !! "gauge" ≫= (.!! "size")
    = Some (VAtom (AStr "default"))
  ∧ build_supplied_param None None None !! "size" = None
  ∧ (∃ final_param,
       (resolve_file (InRules "_globalrule_") "gauge" sample_gauge_at_loop).1
       = Ok final_param
       ∧ final_param !! "size" = Some (VAtom ANone)
       ∧ final_param !! "size" ≠ Some (VAtom (AStr "default")))
  ∧ commands
      (export_svg "posix" "/" "/tmp" sample_isdir sample_listdir_gauge
         sample_json_load_gauge sample_run sample_spawn true sample_pillow_save
         "src" "out" (Some "rules.json") None None None "default"
         sample_start).2
    = [["/usr/bin/inkscape"; "-f"; "src/gauge.svg"; "--export-area-drawing";
        "--export-png=out/gauge.png"];
       ["/usr/bin/inkscape"; "-f"; "src/ink.svg"; "--export-area-drawing";
        "--export-png=out/ink.png"; "-w"; "300"; "-h"; "300"]].
Proof.
  split; [vm_compute; reflexivity|].
  split; [vm_compute; reflexivity|].
  split; [vm_compute; reflexivity|].
  split; [|vm_compute; reflexivity].
  eexists. split; [reflexivity|].
  split; [vm_compute; reflexivity | vm_compute; discriminate].
Qed.

Lemma precedence_law_witness :
  ∃ final_param st2,
    resolve_file (InRules "_globalrule_") "gauge" sample_gauge_at_loop
    = (Ok final_param, st2)
    ∧ is_Some (final_param !! "size")
    ∧ final_param !! "size" = Some (VAtom ANone).
Proof.
  assert (Hparam : "size" ∈ params) by (repeat constructor).
  assert (Hsetup :
            export_svg_setup "posix" sample_isdir sample_listdir_gauge
              sample_json_load_gauge
              "src" "out" (Some "rules.json") None None None "default"
              sample_start
            = (Ok ("/usr/bin/inkscape", ["gauge"; "ink"],
                   InRules "_globalrule_"),
               sample_gauge_at_loop))
    by (vm_compute; reflexivity).
  assert (Hiter :
            at_iteration ["gauge"; "ink"]
              (export_file "/" "/tmp" sample_run sample_spawn true
                 sample_pillow_save "/usr/bin/inkscape" "src" "out"
                 (InRules "_globalrule_"))
              sample_gauge_at_loop "gauge" sample_gauge_at_loop).
  { exists [], ["ink"]. split; reflexivity. }
  destruct (precedence_law "posix" "/" "/tmp" sample_isdir sample_listdir_gauge
              sample_json_load_gauge sample_run sample_spawn true
              sample_pillow_save
              "src" "out" (Some "rules.json") None None None "default"
              sample_start "/usr/bin/inkscape" ["gauge"; "ink"]
              (InRules "_globalrule_") sample_gauge_at_loop "gauge"
              sample_gauge_at_loop "size" Hsetup Hiter Hparam)
    as (final_param & st2 & Hres & Hsome & Hfirst).
  exists final_param, st2. split; [exact Hres|]. split; [exact Hsome|].
  apply (Hfirst 0%nat (<["size" := VAtom (AStr "default")]> ∅)
           (VAtom (AStr "default"))).
  - vm_compute. reflexivity.
  - vm_compute. reflexivity.
  - intros j above Hj. exfalso. lia.
Defined.

(** C3 fails as stated: under a global size of 300 by 300, [gauge] with
    the ["default"] size is exported at its natural size ([None]), and
    [gauge] without a size at 300 by 300. *)
Lemma default_size_differs_from_absent :
  ∃ with_default with_absent,
    (resolve_file (InRules "_globalrule_") "gauge"
       (at_loop rules_gauge_default)).1 = Ok with_default
    ∧ (resolve_file (InRules "_globalrule_") "gauge"
         (at_loop rules_gauge_silent)).1 = Ok with_absent
    ∧ with_default !! "size" = Some (VAtom ANone)
    ∧ with_absent !! "size" = Some (VList [AInt 300; AInt 300])
    ∧ with_default ≠ with_absent.
Proof.
  eexists _, _. split; [reflexivity|]. split; [reflexivity|].
  split; [by vm_compute|]. split; [by vm_compute|].
  intros Heq. apply (f_equal (λ m : block, m !! "size")) in Heq.
  vm_compute in Heq. discriminate.
Qed.

Lemma default_size_witness :
  ∃ with_default with_absent,
    (resolve_file (InRules "_globalrule_") "gauge"
       (at_loop rules_gauge_default)).1 = Ok with_default
    ∧ with_default = <["size" := VAtom ANone]> with_absent.
Proof.
  assert (Hsize : (<["size" := VAtom (AStr "default")]> ∅ : block) !! "size"
                  = Some (VAtom (AStr "default")))
    by (vm_compute; reflexivity).
  assert (Hdata : rule_data (at_loop rules_gauge_default) !! "gauge"
                  = Some (<["size" := VAtom (AStr "default")]> ∅))
    by (vm_compute; reflexivity).
  destruct (default_size_is_none_not_absent "gauge"
              (at_loop rules_gauge_default)
              (<["size" := VAtom (AStr "default")]> ∅)
              (VAtom (AStr "default")) Hsize eq_refl) as [Hfile _].
  destruct (Hfile (InRules "_globalrule_") Hdata)
    as (with_default & st1 & with_absent & st2 & H1 & _ & H3 & _).
  exists with_default, with_absent. rewrite H1. split; [reflexivity | exact H3].
Defined.

(** C8 fails as stated: resolving [gauge] rewrites its rule block. *)
Lemma resolution_mutates_rule_block :
  rule_data (at_loop rules_gauge_default) !! "gauge"
    = Some (<["size" := VAtom (AStr "default")]> ∅)
  ∧ rule_data (resolve_file (InRules "_globalrule_") "gauge"
                 (at_loop rules_gauge_default)).2 !! "gauge"
    = Some (<["size" := VAtom ANone]> ∅)
  ∧ rule_data (resolve_file (InRules "_globalrule_") "gauge"
                 (at_loop rules_gauge_default)).2
    ≠ rule_data (at_loop rules_gauge_default).
Proof.
  split; [by vm_compute|]. split; [by vm_compute|].
  intros Heq.
  apply (f_equal (λ rd : rule_document, rd !! "gauge" ≫= (.!! "size"))) in Heq.
  vm_compute in Heq. discriminate.
Qed.

Lemma resolution_only_curates_witness :
  rule_data
    (for_each ["gauge"; "ink"]
       (export_file "/" "/tmp" sample_run sample_spawn true sample_pillow_save
          "/usr/bin/inkscape" "src" "out" (InRules "_globalrule_"))
       (sample_at_loop rules_global_size)).2
  = rule_data (sample_at_loop rules_global_size).
Proof.
  destruct (resolution_only_curates_rule_blocks "/" "/tmp" sample_run sample_spawn true
              sample_pillow_save "/usr/bin/inkscape" "src" "out"
              (InRules "_globalrule_") "gauge" ["gauge"; "ink"]
              (sample_at_loop rules_global_size))
    as (_ & _ & _ & _ & _ & _ & Hsame).
  apply Hsame. intros key data v. simpl. unfold rules_global_size.
  destruct (decide (key = "_globalrule_")) as [->|Hg].
  { rewrite lookup_insert_eq. intros [= <-]. rewrite lookup_insert_eq.
    intros [= <-]. reflexivity. }
  rewrite lookup_insert_ne by (intros Heq; apply Hg; symmetry; exact Heq).
  destruct (decide (key = "gauge")) as [->|Hk].
  { rewrite lookup_insert_eq. intros [= <-].
    rewrite lookup_insert_ne by discriminate. rewrite lookup_empty.
    discriminate. }
  rewrite lookup_insert_ne by (intros Heq; apply Hk; symmetry; exact Heq).
  rewrite lookup_empty. discriminate.
Defined.

Lemma relay_removes_intermediate_witness :
  "/tmp/mJaAjM.png" ∉
    files (_convert_via_inkscape "/" "/tmp" sample_run sample_spawn true
             sample_pillow_save
             "/usr/bin/inkscape" "src/gauge.svg" "out/gauge.jpg" "jpg"
             (VList [AInt 400; AInt 400]) (VAtom (ABool true)) sample_start).2.
Proof.
  destruct (relay_removes_intermediate "/" "/tmp" sample_run sample_spawn true
              sample_pillow_save "/usr/bin/inkscape" "src/gauge.svg"
              "out/gauge.jpg" "jpg" (VList [AInt 400; AInt 400])
              (VAtom (ABool true)) sample_start)
    as (cmd & _ & Hgone).
  - reflexivity.
  - right. exists (AInt 400), (AInt 400), []. reflexivity.
  - exact Hgone.
Defined.

Lemma size_flags_witness :
  commands (_convert_via_inkscape "/" "/tmp" sample_run sample_spawn true
              sample_pillow_save
              "/usr/bin/inkscape" "src/ink.svg" "out/ink.png" "png"
              (VList [AInt 50; AInt 60]) (VAtom (ABool false)) sample_start).2
  = [["/usr/bin/inkscape"; "-f"; "src/ink.svg"; "--export-area-page";
      "--export-png=out/ink.png"; "-w"; "50"; "-h"; "60"]].
Proof.
  destruct (size_flags_by_route "/" "/tmp" sample_run sample_spawn true
              sample_pillow_save
              "/usr/bin/inkscape" "src/ink.svg" "out/ink.png" "png"
              (AInt 50) (AInt 60) (VAtom (ABool false)) sample_start)
    as [Hpng _].
  destruct (Hpng eq_refl) as [Hsized _]. exact Hsized.
Defined.

Lemma mixed_case_native_witness :
  _convert_via_inkscape "/" "/tmp" sample_run sample_spawn true
    sample_pillow_save
    "/usr/bin/inkscape" "src/ink.svg" "out/ink.PNG" "PNG"
    (VList [AInt 50; AInt 60]) (VAtom (ABool true)) sample_start
  = (Ok tt,
     State ∅ ∅ ∅
       (sample_run ["/usr/bin/inkscape"; "-f"; "src/ink.svg";
                    "--export-area-drawing"] sample_files)
       []
       [["/usr/bin/inkscape"; "-f"; "src/ink.svg"; "--export-area-drawing"]]).
Proof.
  assert (Hcase : "PNG" ≠ lower "PNG") by (vm_compute; discriminate).
  destruct (mixed_case_native_runs_bare_command "/" "/tmp" sample_run sample_spawn true
              sample_pillow_save "/usr/bin/inkscape" "src/ink.svg" "out/ink.PNG"
              "PNG" (VList [AInt 50; AInt 60]) (VAtom (ABool true)) sample_start
              eq_refl Hcase) as [_ Hrun].
  exact Hrun.
Defined.

(** C2 fails as stated: with the drawings [a], [b], [c] and a rule giving
    [b] the format ["webp"], [a] is converted, [b] is reported, and the
    process ends with status 1 before anything is run for [c], whose
    format is the default ["png"]. *)
Lemma unsupported_format_stops_the_batch :
  (export_svg "posix" "/" "/tmp" sample_isdir sample_listdir sample_json_load
     sample_run sample_spawn true sample_pillow_save
     "src" "out" (Some "rules.json") None None None "default" sample_start).1
  = Exit 1
  ∧ commands
      (export_svg "posix" "/" "/tmp" sample_isdir sample_listdir
         sample_json_load sample_run sample_spawn true sample_pillow_save
         "src" "out" (Some "rules.json") None None None "default"
         sample_start).2
    = [["/usr/bin/inkscape"; "-f"; "src/a.svg"; "--export-area-drawing";
        "--export-png=out/a.png"]]
  ∧ stdout
      (export_svg "posix" "/" "/tmp" sample_isdir sample_listdir
         sample_json_load sample_run sample_spawn true sample_pillow_save
         "src" "out" (Some "rules.json") None None None "default"
         sample_start).2
    = ["Inkscape installation found ... /usr/bin/inkscape";
       "3 SVG files found"; "Saved a.png";
       "Unsupported file format to export: webp"]
  ∧ (resolve_file Fresh "c" (sample_at_loop rules_b_webp)).1
    = Ok def_param_literal
  ∧ classify "png" = Native.
Proof. vm_compute. repeat split. Qed.

Lemma unsupported_format_aborts_witness :
  ∃ st',
    for_each (["a"] ++ "b" :: ["c"])
      (export_file "/" "/tmp" sample_run sample_spawn true sample_pillow_save
         "/usr/bin/inkscape" "src" "out" Fresh)
      (sample_at_loop rules_b_webp)
    = (Exit 1, st')
    ∧ commands st'
      = [["/usr/bin/inkscape"; "-f"; "src/a.svg"; "--export-area-drawing";
          "--export-png=out/a.png"]].
Proof.
  assert (Hbefore :
            for_each ["a"]
              (export_file "/" "/tmp" sample_run sample_spawn true
                 sample_pillow_save
                 "/usr/bin/inkscape" "src" "out" Fresh)
              (sample_at_loop rules_b_webp)
            = (Ok tt,
               State rules_b_webp ∅ def_param_literal
                 (sample_files ∪ {["/tmp/mJaAjM.png"]}) ["Saved a.png"]
                 [["/usr/bin/inkscape"; "-f"; "src/a.svg";
                   "--export-area-drawing"; "--export-png=out/a.png"]]))
    by (vm_compute; reflexivity).
  destruct (unsupported_format_aborts_batch "/" "/tmp" sample_run sample_spawn true
              sample_pillow_save "/usr/bin/inkscape" "src" "out" Fresh
              ["a"] "b" ["c"] (sample_at_loop rules_b_webp) _
              (<["format" := VAtom (AStr "webp")]> def_param_literal) "webp"
              eq_refl Hbefore)
    as (st' & Hrun & _ & Hcommands & _).
  - vm_compute. reflexivity.
  - vm_compute. reflexivity.
  - reflexivity.
  - exists st'. split; [exact Hrun | exact Hcommands].
Defined.


(** The same rules through the two ways in: from the command line every
    drawing is cropped to its drawing area although the global rule asks
    for the page; called as a function without [drawing_only], [export_svg]
    follows the global rule. *)
Example global_drawing_only_cli_and_call :
  commands
    (main "posix" "/" "/tmp" sample_isdir sample_listdir sample_json_load_page
       sample_run sample_spawn true sample_pillow_save args_rules_only
       sample_start).2
  = [["/usr/bin/inkscape"; "-f"; "src/a.svg"; "--export-area-drawing";
      "--export-png=out/a.png"];
     ["/usr/bin/inkscape"; "-f"; "src/b.svg"; "--export-area-drawing";
      "--export-png=out/b.png"];
     ["/usr/bin/inkscape"; "-f"; "src/c.svg"; "--export-area-drawing";
      "--export-png=out/c.png"]]
  ∧ commands
      (export_svg "posix" "/" "/tmp" sample_isdir sample_listdir
         sample_json_load_page sample_run sample_spawn true sample_pillow_save
         "src" "out" (Some "rules.json") None None None "default"
         sample_start).2
    = [["/usr/bin/inkscape"; "-f"; "src/a.svg"; "--export-area-page";
        "--export-png=out/a.png"];
       ["/usr/bin/inkscape"; "-f"; "src/b.svg"; "--export-area-page";
        "--export-png=out/b.png"];
       ["/usr/bin/inkscape"; "-f"; "src/c.svg"; "--export-area-page";
        "--export-png=out/c.png"]].
Proof. split; vm_compute; reflexivity. Qed.

(** A renderer that is a file but cannot be executed, and a rules file
    that is not text: the exception leaves [export_svg], which prints
    nothing about it and does not end the process itself. *)
Example renderer_not_executable :
  export_svg "posix" "/" "/tmp" sample_isdir sample_listdir sample_json_load
    sample_run sample_spawn_denied true sample_pillow_save
    "src" "out" None None None None "/usr/bin/inkscape" sample_start
  = (Raise (OtherError "PermissionError"),
     State ∅ ∅ def_param_literal sample_files ["3 SVG files found"]
       [["/usr/bin/inkscape"; "-f"; "src/a.svg"; "--export-area-drawing";
         "--export-png=out/a.png"]]).
Proof. vm_compute. reflexivity. Qed.

Example rules_file_not_text :
  export_svg "posix" "/" "/tmp" sample_isdir sample_listdir
    sample_json_load_binary sample_run sample_spawn true sample_pillow_save
    "src" "out" (Some "rules.json") None None None "default" sample_start
  = (Raise (OtherError "UnicodeDecodeError"),
     State ∅ ∅ def_param_literal sample_files
       ["Inkscape installation found ... /usr/bin/inkscape";
        "3 SVG files found"] []).
Proof. vm_compute. reflexivity. Qed.

Lemma resolved_record_fields_witness : resolve [∅; ∅] !! "size" = None.
Proof.
  destruct (resolved_record_fields [∅; ∅]) as [_ Hnone].
  apply Hnone; [repeat constructor|].
  intros b Hb. apply elem_of_cons in Hb as [->|Hb]; [reflexivity|].
  apply elem_of_cons in Hb as [->|Hb]; [reflexivity|].
  apply elem_of_nil in Hb. destruct Hb.
Defined.

Lemma unmatched_rule_is_ignored_witness :
  (resolve_file (InRules "_globalrule_") "ink"
     (set_rule_data
        (<["gauge" := ∅]> (rule_data (at_loop rules_global_size)))
        (at_loop rules_global_size))).1
  = (resolve_file (InRules "_globalrule_") "ink" (at_loop rules_global_size)).1.
Proof.
  apply unmatched_rule_is_ignored; discriminate.
Defined.

Lemma curated_param_invariants_witness :
  curated_param (<["size" := VAtom (AStr "default")]> ∅) !! "format"
  = (<["size" := VAtom (AStr "default")]> ∅ : block) !! "format".
Proof.
  destruct (curated_param_invariants (<["size" := VAtom (AStr "default")]> ∅))
    as (_ & Hother & _).
  apply Hother. discriminate.
Defined.

Lemma existence_checks_witness :
  _resolve_dir sample_isdir "src" sample_start = (Ok true, sample_start).
Proof.
  destruct (existence_checks_never_return_false sample_isdir "src" sample_start)
    as (_ & _ & Hdir & _).
  apply Hdir. reflexivity.
Defined.

Lemma stem_of_svg_name_witness :
  endswith "ink.svg" ".svg" = true ∧ split_head ".svg" "ink.svg.svg" = "ink".
Proof.
  apply (stem_of_svg_name "ink" ".svg").
  intros a b.
  destruct a as [|c1 [|c2 [|c3 [|c4 a]]]]; simpl; discriminate.
Defined.

Lemma size_option_witness :
  ∃ w h,
    "50,60" = w +:+ "," +:+ h
    ∧ main "posix" "/" "/tmp" sample_isdir sample_listdir sample_json_load
        sample_run sample_spawn true
      sample_pillow_save args_size_50_60 sample_start
      = export_svg "posix" "/" "/tmp" sample_isdir sample_listdir
          sample_json_load sample_run sample_spawn true sample_pillow_save
          "src" "out" None None (Some (VList [AStr w; AStr h])) (Some true)
          "default" sample_start.
Proof.
  destruct (size_option_needs_one_comma "posix" "/" "/tmp" sample_isdir
              sample_listdir sample_json_load sample_run sample_spawn true
              sample_pillow_save
              args_size_50_60 "50,60" sample_start eq_refl eq_refl)
    as [Hone _].
  apply Hone. vm_compute. reflexivity.
Defined.

Lemma drawing_only_option_witness :
  main "posix" "/" "/tmp" sample_isdir sample_listdir sample_json_load
    sample_run sample_spawn true
  sample_pillow_save args_drawing_only_YES sample_start
  = export_svg "posix" "/" "/tmp" sample_isdir sample_listdir
      sample_json_load sample_run sample_spawn true sample_pillow_save
      "src" "out" None None None (Some true) "default" sample_start.
Proof.
  destruct (drawing_only_option_tokens "posix" "/" "/tmp" sample_isdir
              sample_listdir sample_json_load sample_run sample_spawn true
              sample_pillow_save
              args_drawing_only_YES "YES" sample_start eq_refl eq_refl)
    as [Hyes _].
  apply Hyes. vm_compute. repeat constructor.
Defined.

Lemma unusable_size_witness :
  _convert_via_inkscape "/" "/tmp" sample_run sample_spawn true
    sample_pillow_save
    "/usr/bin/inkscape" "src/ink.svg" "out/ink.png" "png"
    (VList [AInt 50]) (VAtom (ABool true)) sample_start
  = (Raise IndexError, sample_start).
Proof.
  destruct (unusable_size_raises_before_running "/" "/tmp" sample_run sample_spawn true
              sample_pillow_save "/usr/bin/inkscape" "src/ink.svg" "out/ink.png"
              "png" (VAtom (ABool true)) sample_start) as [Hsize _].
  destruct (Hsize (or_introl eq_refl)) as (Hshort & _).
  apply Hshort.
Defined.

Lemma non_string_format_witness :
  (export_file "/" "/tmp" sample_run sample_spawn true sample_pillow_save
     "/usr/bin/inkscape" "src" "out" Fresh "gauge"
     (sample_at_loop rules_gauge_format_5)).1
  = Raise TypeError.
Proof.
  rewrite (non_string_format_raises_type_error "/" "/tmp" sample_run sample_spawn true
             sample_pillow_save "/usr/bin/inkscape" "src" "out" Fresh "gauge"
             (sample_at_loop rules_gauge_format_5)
             (<["format" := VAtom (AInt 5)]> def_param_literal)
             (VAtom (AInt 5))).
  - reflexivity.
  - vm_compute. reflexivity.
  - vm_compute. reflexivity.
  - discriminate.
Defined.

Lemma first_failure_witness :
  ∃ st2,
    for_each (["a"] ++ "b" :: ["c"])
      (export_file "/" "/tmp" sample_run sample_spawn true sample_pillow_save
         "/usr/bin/inkscape" "src" "out" Fresh)
      (sample_at_loop rules_b_webp)
    = (Exit 1, st2).
Proof.
  eexists.
  eapply (first_failure_ends_the_batch "/" "/tmp" sample_run sample_spawn true
            sample_pillow_save "/usr/bin/inkscape" "src" "out" Fresh
            ["a"] "b" ["c"] (sample_at_loop rules_b_webp)).
  - vm_compute. reflexivity.
  - vm_compute. reflexivity.
  - discriminate.
Defined.

Lemma relay_outcomes_witness :
  (_convert_via_inkscape "/" "/tmp" sample_run sample_spawn true
     sample_pillow_save
     "/usr/bin/inkscape" "src/gauge.svg" "out/gauge.gif" "gif"
     (VAtom ANone) (VAtom (ABool true)) sample_start).1
  = Ok tt.
Proof.
  destruct (relay_outcomes "/" "/tmp" sample_run sample_spawn true
              sample_pillow_save
              "/usr/bin/inkscape" "src/gauge.svg" "out/gauge.gif" "gif"
              false ANone ANone (VAtom (ABool true)) sample_start eq_refl)
    as (_ & Hran).
  destruct (Hran eq_refl) as (_ & _ & Hsaved & _).
  assert (Hthere : "/tmp/mJaAjM.png" ∈ sample_files ∪ {["/tmp/mJaAjM.png"]}).
  { apply elem_of_union_r. apply elem_of_singleton. reflexivity. }
  rewrite (Hsaved Hthere eq_refl
             ((sample_files ∪ {["/tmp/mJaAjM.png"]}) ∪ {["out/gauge.gif"]})
             eq_refl).
  - reflexivity.
  - apply elem_of_union_l. exact Hthere.
Defined.

Lemma export_svg_exit_status_witness :
  ∃ z,
    (export_svg "posix" "/" "/tmp" sample_isdir sample_listdir sample_json_load
       sample_run sample_spawn true sample_pillow_save
       "src" "out" (Some "rules.json") None None None "default" sample_start).1
    = Exit z
    ∧ z = 1%Z.
Proof.
  assert (Hrun :
            (export_svg "posix" "/" "/tmp" sample_isdir sample_listdir
               sample_json_load sample_run sample_spawn true sample_pillow_save
               "src" "out" (Some "rules.json") None None None "default"
               sample_start).1
            = Exit 1).
  { vm_compute. reflexivity. }
  exists 1%Z. split; [exact Hrun|].
  exact (export_svg_exits_with_status_one "posix" "/" "/tmp" sample_isdir
           sample_listdir sample_json_load sample_run sample_spawn true
           sample_pillow_save
           "src" "out" (Some "rules.json") None None None "default"
           sample_start 1%Z Hrun).
Defined.

Lemma plain_batch_witness :
  ∃ st',
    export_svg "posix" "/" "/tmp" sample_isdir sample_listdir sample_json_load
      sample_run sample_spawn true sample_pillow_save
      "src" "out" None None None None "/usr/bin/inkscape" sample_start
    = (Ok tt, st')
    ∧ commands st'
      = [["/usr/bin/inkscape"; "-f"; "src/a.svg"; "--export-area-drawing";
          "--export-png=out/a.png"];
         ["/usr/bin/inkscape"; "-f"; "src/b.svg"; "--export-area-drawing";
          "--export-png=out/b.png"];
         ["/usr/bin/inkscape"; "-f"; "src/c.svg"; "--export-area-drawing";
          "--export-png=out/c.png"]].
Proof.
  assert (Hfile : "/usr/bin/inkscape" ∈ files sample_start).
  { apply elem_of_union_l. apply elem_of_singleton. reflexivity. }
  destruct (plain_batch_converts_every_drawing "posix" "/" "/tmp" sample_isdir
              sample_listdir sample_json_load sample_run sample_spawn true
              sample_pillow_save
              "src" "out" "/usr/bin/inkscape" sample_start
              eq_refl eq_refl ltac:(discriminate) Hfile ltac:(discriminate))
    as (Hstarted & _).
  destruct (Hstarted (λ cmd fs _, eq_refl)) as (st' & Hrun & Hcommands & _).
  exists st'. split; [exact Hrun | exact Hcommands].
Defined.

Lemma fatal_preconditions_witness :
  export_svg "posix" "/" "/tmp" sample_no_dir sample_listdir sample_json_load
    sample_run sample_spawn true sample_pillow_save
    "src" "out" None None None None "default" sample_start
  = (Exit 1, (print "src is not a valid directory!" sample_start).2).
Proof.
  destruct (fatal_preconditions_run_nothing "posix" "/" "/tmp" sample_no_dir
              sample_listdir sample_json_load sample_run sample_spawn true
              sample_pillow_save
              "src" "out" None None None None "default" sample_start)
    as (Hsrc & _).
  apply Hsrc. reflexivity.
Defined.
